(** * autocrop: sub-image detection, orientation search and border cropping

    A shallow embedding of [autocrop.py].  Python integers are [Z], strings
    are [string] (one character per code point), raster images are records
    of a size and a list of pixel rows, the working directory is a finite
    map from file names to decoded images, and Python exceptions are the
    [Raise] results of an error monad.  The [print] calls are left out. *)

From Stdlib Require Import ZArith QArith Lia List Ascii String FinFun.
From Stdlib Require Import Numbers.DecimalString Numbers.DecimalZ Numbers.DecimalPos
  Numbers.DecimalN Numbers.DecimalFacts.
From stdpp Require Import base option list strings gmap.

Local Open Scope string_scope.
Local Open Scope Z_scope.

(** ** Exceptions *)

Inductive exn : Type :=
  | CvError            (* cv2.error *)
  | TesseractError     (* raised by pytesseract.image_to_string *)
  | FileNotFoundError  (* PIL.Image.open on a missing file *)
  | ValueError         (* tuple unpacking of the wrong length, an empty image to save *)
  | OSError.           (* a file Pillow cannot identify, a failed write *)

Inductive result (A : Type) : Type :=
  | Ok (a : A)
  | Raise (e : exn).
Arguments Ok {A} a.
Arguments Raise {A} e.

#[global] Instance result_ret : MRet result := fun A a => Ok a.
#[global] Instance result_bind : MBind result := fun A B f m =>
  match m with
  | Ok a => f a
  | Raise e => Raise e
  end.

(** ** Raster images *)

Module Img.

Record image (A : Type) : Type := Image
  { width : nat; height : nat; rows : list (list A) }.
Arguments Image {A} width height rows.
Arguments width {A} i.
Arguments height {A} i.
Arguments rows {A} i.

(** The image of size [w]x[h] whose pixel at column [x], row [y] is
    [f x y]. *)
Definition tabulate {A} (w h : nat) (f : nat -> nat -> A) : image A :=
  Image w h (List.map (fun y => List.map (fun x => f x y) (seq 0 w)) (seq 0 h)).

Definition getpixel {A} (fill : A) (im : image A) (x y : nat) : A :=
  nth x (nth y (rows im) []) fill.

(** Pixel access at integer coordinates; [fill] outside the image. *)
Definition getpixelZ {A} (fill : A) (im : image A) (x y : Z) : A :=
  if (0 <=? x) && (x <? Z.of_nat (width im)) && (0 <=? y) && (y <? Z.of_nat (height im))
  then getpixel fill im (Z.to_nat x) (Z.to_nat y)
  else fill.

(** A point operation applied to every pixel. *)
Definition point {A B} (f : A -> B) (im : image A) : image B :=
  Image (width im) (height im) (List.map (List.map f) (rows im)).

Definition pixels {A} (im : image A) : list A := List.concat (rows im).

(** An image whose size is empty. *)
Definition empty {A} (im : image A) : bool :=
  (width im =? 0)%nat || (height im =? 0)%nat.

End Img.
Import Img.

Record pixel : Type := RGB { red : Z; green : Z; blue : Z }.

Definition black : pixel := RGB 0 0 0.
Definition white : pixel := RGB 255 255 255.

(** ** Pillow *)

Module PIL.

(** [Image.crop((left, upper, right, lower))]: the region is copied and
    whatever lies outside the source is filled with zeros. *)
Definition crop {A} (fill : A) (box : Z * Z * Z * Z) (im : image A) : image A :=
  let '(l, u, r, b) := box in
  tabulate (Z.to_nat (r - l)) (Z.to_nat (b - u))
    (fun x y => getpixelZ fill im (l + Z.of_nat x) (u + Z.of_nat y)).

(** [Image.rotate(angle, expand=True)].  For the multiples of 90 degrees
    Pillow transposes the image exactly (0: copy, 180: ROTATE_180, 90:
    ROTATE_90 counter-clockwise, 270: ROTATE_270); these are the only
    angles this program passes, any other angle is left as the identity. *)
Definition rotate {A} (fill : A) (angle : Z) (im : image A) : image A :=
  let w := width im in
  let h := height im in
  let angle := angle mod 360 in
  if angle =? 0 then im
  else if angle =? 180 then
    tabulate w h (fun x y => getpixel fill im (w - 1 - x) (h - 1 - y))
  else if angle =? 90 then
    tabulate h w (fun x y => getpixel fill im (w - 1 - y) x)
  else if angle =? 270 then
    tabulate h w (fun x y => getpixel fill im y (h - 1 - x))
  else im.

(** [Image.convert('L')] of an RGB pixel: ITU-R 601-2 luma in 16-bit
    fixed point, [(R*19595 + G*38470 + B*7471 + 0x8000) >> 16]. *)
Definition rgb2l (p : pixel) : Z :=
  Z.shiftr (red p * 19595 + green p * 38470 + blue p * 7471 + 32768) 16.

Definition convert_L (im : image pixel) : image Z := point rgb2l im.

(** [Image.convert('RGB')] of a grayscale pixel. *)
Definition l2rgb (v : Z) : pixel := RGB v v v.

Definition convert_RGB (im : image Z) : image pixel := point l2rgb im.

(** [ImageOps.invert] on mode L. *)
Definition invert (im : image Z) : image Z := point (fun v => 255 - v) im.

(** [Image.getbbox()]: the smallest box around the non-zero pixels,
    [None] when there is none.  The box is (left, upper, right, lower),
    right and lower exclusive. *)
Definition extend (acc : option (Z * Z * Z * Z)) (x y : Z) : option (Z * Z * Z * Z) :=
  match acc with
  | None => Some (x, y, x + 1, y + 1)
  | Some (l, u, r, b) => Some (Z.min l x, Z.min u y, Z.max r (x + 1), Z.max b (y + 1))
  end.

Fixpoint scan_row (y : Z) (x : Z) (row : list Z) (acc : option (Z * Z * Z * Z))
  : option (Z * Z * Z * Z) :=
  match row with
  | [] => acc
  | v :: row' => scan_row y (x + 1) row' (if v =? 0 then acc else extend acc x y)
  end.

Fixpoint scan_rows (y : Z) (rs : list (list Z)) (acc : option (Z * Z * Z * Z))
  : option (Z * Z * Z * Z) :=
  match rs with
  | [] => acc
  | row :: rs' => scan_rows (y + 1) rs' (scan_row y 0 row acc)
  end.

Definition getbbox (im : image Z) : option (Z * Z * Z * Z) :=
  scan_rows 0 (rows im) None.

End PIL.

(** ** Border Cropper (process_sub_image, "Autocrop border") *)

Definition autocrop_border (final_image : image pixel) : image pixel :=
  let final_image := PIL.invert (PIL.convert_L final_image) in
  let bbox := PIL.getbbox final_image in
  let final_image :=
    match bbox with
    | Some box => PIL.crop 0 box final_image
    | None => final_image
    end in
  PIL.convert_RGB (PIL.invert final_image).

(** ** OpenCV *)

Module cv2.

Inductive threshold_type : Type := THRESH_BINARY | THRESH_BINARY_INV.

(** [cv2.threshold] on one 8-bit pixel: THRESH_BINARY gives [maxval]
    where [src > thresh] and 0 elsewhere, THRESH_BINARY_INV the
    opposite. *)
Definition threshold_pixel (thresh maxval : Z) (type : threshold_type) (src : Z) : Z :=
  match type with
  | THRESH_BINARY => if thresh <? src then maxval else 0
  | THRESH_BINARY_INV => if thresh <? src then 0 else maxval
  end.

Definition threshold (src : image Z) (thresh maxval : Z) (type : threshold_type)
  : image Z :=
  point (threshold_pixel thresh maxval type) src.

(** [cv2.bitwise_not] on 8-bit pixels. *)
Definition bitwise_not (src : image Z) : image Z :=
  point (fun v => Z.lxor v 255) src.

(** A contour is a sequence of integer points (x, y). *)
Definition contour : Type := list (Z * Z).

(** [cv2.contourArea]: half the absolute value of the cross products of
    consecutive points, the last point closing the polygon (Green's
    formula). *)
Fixpoint cross_sum (prev : Z * Z) (pts : list (Z * Z)) : Z :=
  match pts with
  | [] => 0
  | p :: pts' => (fst prev * snd p - snd prev * fst p) + cross_sum p pts'
  end.

Definition contourArea (cnt : contour) : Q :=
  Z.abs (cross_sum (List.last cnt (0, 0)) cnt) # 2.

(** [cv2.boundingRect]: (x, y, w, h) of the smallest upright rectangle
    that holds every point; all zero for an empty point set. *)
Definition boundingRect (cnt : contour) : Z * Z * Z * Z :=
  match cnt with
  | [] => (0, 0, 0, 0)
  | p :: ps =>
      let xmin := fold_right Z.min (fst p) (List.map fst ps) in
      let xmax := fold_right Z.max (fst p) (List.map fst ps) in
      let ymin := fold_right Z.min (snd p) (List.map snd ps) in
      let ymax := fold_right Z.max (snd p) (List.map snd ps) in
      (xmin, ymin, xmax - xmin + 1, ymax - ymin + 1)
  end.

End cv2.

(** ** External collaborators

    The parts of OpenCV and Tesseract whose algorithms are outside this
    program: the per-pixel gray conversion of [cv2.cvtColor], the contour
    extraction [cv2.findContours(_, RETR_EXTERNAL, CHAIN_APPROX_SIMPLE)]
    and the text recognition [pytesseract.image_to_string(_, '--psm 1')].
    The last two may raise.  Pillow reads the file of a page on its own:
    [pillow_open name img] is what [Image.open] makes of the file [name]
    that OpenCV decodes as [img], an image that need not be [img], or the
    exception it raises; [save_error name img] is the error of writing
    [img] to [name], if there is one. *)

Class Externals : Type :=
  { gray_of : pixel -> Z;
    findContours : image Z -> result (list cv2.contour);
    image_to_string : image Z -> result string;
    pillow_open : string -> image pixel -> result (image pixel);
    save_error : string -> image pixel -> option exn }.

(** [cv2.cvtColor(img, COLOR_BGR2GRAY)].  [cv2.imread] gives [None] for a
    file it cannot read; a missing or empty source raises. *)
Definition cvtColor_GRAY `{Externals} (src : option (image pixel)) : result (image Z) :=
  match src with
  | None => Raise CvError
  | Some img => if Img.empty img then Raise CvError else Ok (point gray_of img)
  end.

(** ** Python strings and integers *)

(** [str(n)] for an integer. *)
Definition str (n : Z) : string := NilZero.string_of_int (Z.to_int n).

Definition is_digit (c : ascii) : bool :=
  let n := nat_of_ascii c in (48 <=? n)%nat && (n <=? 57)%nat.

(** [re.findall(r'\d+', s)]: the maximal runs of digits, left to right;
    [run] is the run being read. *)
Definition close_run (run : string) : list string :=
  match run with
  | EmptyString => []
  | _ => [run]
  end.

Fixpoint findall_digits_from (s : string) (run : string) : list string :=
  match s with
  | EmptyString => close_run run
  | String c s' =>
      if is_digit c then findall_digits_from s' (run ++ String c EmptyString)
      else close_run run ++ findall_digits_from s' EmptyString
  end.

Definition findall_digits (s : string) : list string := findall_digits_from s EmptyString.

(** [int(s)] for a run of digits. *)
Fixpoint int_from (s : string) (acc : Z) : Z :=
  match s with
  | EmptyString => acc
  | String c s' => int_from s' (10 * acc + (Z.of_nat (nat_of_ascii c) - 48))
  end.

Definition int (s : string) : Z := int_from s 0.

(** [str.strip()]: leading and trailing white space removed. *)
Definition isspace (c : ascii) : bool :=
  let n := nat_of_ascii c in
  ((9 <=? n)%nat && (n <=? 13)%nat) || ((28 <=? n)%nat && (n <=? 32)%nat)
  || (n =? 133)%nat || (n =? 160)%nat.

Fixpoint lstrip (s : string) : string :=
  match s with
  | EmptyString => EmptyString
  | String c s' => if isspace c then lstrip s' else s
  end.

Fixpoint rstrip (s : string) : string :=
  match s with
  | EmptyString => EmptyString
  | String c s' =>
      match rstrip s' with
      | EmptyString => if isspace c then EmptyString else String c EmptyString
      | r => String c r
      end
  end.

Definition strip (s : string) : string := rstrip (lstrip s).

(** [' ' in text]. *)
Fixpoint has_space (text : string) : bool :=
  match text with
  | EmptyString => false
  | String c s' => (nat_of_ascii c =? 32)%nat || has_space s'
  end.

Definition len (s : string) : Z := Z.of_nat (String.length s).

(** ** Region Detector (find_sub_images) *)

(** [f'{w}x{h}+{x}+{y}'] *)
Definition format_box (w h x y : Z) : string :=
  str w ++ "x" ++ str h ++ "+" ++ str x ++ "+" ++ str y.

(** One turn of [for cnt in contours]. *)
Definition add_box (boxes : list string) (cnt : cv2.contour) : list string :=
  if negb (Qle_bool (cv2.contourArea cnt) 5000) then
    let '(x, y, w, h) := cv2.boundingRect cnt in
    boxes ++ [format_box w h x y]
  else boxes.

(** The body of the [try] block. *)
Definition find_sub_images_try `{Externals}
    (files : gmap string (image pixel)) (image_file : string) : result (list string) :=
  let img := files !! image_file in
  gray ← cvtColor_GRAY img;
  let thresh := cv2.threshold gray 200 255 cv2.THRESH_BINARY in
  let thresh := cv2.bitwise_not thresh in
  contours ← findContours thresh;
  let boxes := fold_left add_box contours [] in
  mret boxes.

Definition find_sub_images `{Externals}
    (files : gmap string (image pixel)) (image_file : string) : list string :=
  match find_sub_images_try files image_file with
  | Ok boxes => boxes
  | Raise _ => []
  end.

(** [width, height, x, y = map(int, re.findall(r'\d+', box))] *)
Definition parse_box (box : string) : result (Z * Z * Z * Z) :=
  match List.map int (findall_digits box) with
  | [width; height; x; y] => Ok (width, height, x, y)
  | _ => Raise ValueError
  end.

(** ** Orientation Resolver (process_sub_image, "Detecting orientation") *)

Record search : Type := Search
  { best_rotation : Z; best_text : string; found_orientation : bool }.

Definition search_start : search := Search 0 "" false.

(** [for] over a list with a body that may raise. *)
Fixpoint for_each {A S : Type} (body : S -> A -> result S) (l : list A) (s : S)
  : result S :=
  match l with
  | [] => Ok s
  | a :: l' => s' ← body s a; for_each body l' s'
  end.

Definition sum_pixels (a : image Z) : Z := fold_right Z.add 0 (pixels a).

(** [np.mean(a) < bound], decided on the exact quotient; the mean of no
    pixel at all is nan, which is below nothing. *)
Definition mean_lt (a : image Z) (bound : Z) : bool :=
  let n := Z.of_nat (List.length (pixels a)) in
  (0 <? n) && (sum_pixels a <? bound * n).

(** [if len(text) > len(best_text) and ' ' in text: ...] *)
Definition accept (st : search) (rotation : Z) (text : string) : search :=
  if (len (best_text st) <? len text) && has_space text
  then Search rotation text true
  else st.

(** One turn of [for rotation in [0, 270, 90, 180]]. *)
Definition try_rotation `{Externals} (cropped_img : image pixel)
    (st : search) (rotation : Z) : result search :=
  let rotated_img := PIL.rotate black rotation cropped_img in
  (* int(rotated_img.height * 0.10) *)
  let slice_height := Z.of_nat (height rotated_img) / 10 in
  if slice_height =? 0 then Ok st
  else
    let top_slice :=
      PIL.crop black (0, 0, Z.of_nat (width rotated_img), slice_height) rotated_img in
    (* np.array, COLOR_RGB2BGR, COLOR_BGR2GRAY *)
    gray_slice ← cvtColor_GRAY (Some top_slice);
    if mean_lt gray_slice 100 then
      let ocr_slice := cv2.threshold gray_slice 128 255 cv2.THRESH_BINARY_INV in
      match (text ← image_to_string ocr_slice;
             let text := strip text in
             mret (accept st rotation text)) with
      | Ok st' => Ok st'
      | Raise _ => Ok st (* except Exception: continue *)
      end
    else Ok st.

Definition rotations : list Z := [0; 270; 90; 180].

Definition detect_orientation `{Externals} (cropped_img : image pixel) : result search :=
  for_each (try_rotation cropped_img) rotations search_start.

(** ** process_sub_image and main *)

(** The working directory, and the names handed to [Image.save], in the
    order of the calls.  A saved file holds the image as it was handed to
    [save]. *)
Record world : Type := World
  { files : gmap string (image pixel); saved : list string }.

(** [Image.open(name)]: a missing file raises; a file that is there is
    decoded by Pillow, which may raise where OpenCV did not. *)
Definition Image_open `{Externals} (w : world) (name : string) : result (image pixel) :=
  match files w !! name with
  | Some img => pillow_open name img
  | None => Raise FileNotFoundError
  end.

(** The world once [img] has been written to [name]. *)
Definition written (w : world) (name : string) (img : image pixel) : world :=
  World (<[name := img]> (files w)) (saved w ++ [name]).

(** [img.save(name, "JPEG")]: an empty image raises ValueError, a failed
    write raises its error, and in both cases no file is left. *)
Definition Image_save `{Externals} (w : world) (name : string) (img : image pixel)
  : result world :=
  if Img.empty img then Raise ValueError
  else
    match save_error name img with
    | Some e => Raise e
    | None => Ok (written w name img)
    end.

Definition process_sub_image `{Externals}
    (w : world) (input_image box output_name : string) : result world :=
  '(width, height, x, y) ← parse_box box;
  img ← Image_open w input_image;
  let cropped_img := PIL.crop black (x, y, x + width, y + height) img in
  st ← detect_orientation cropped_img;
  let final_image := PIL.rotate white (best_rotation st) cropped_img in
  let final_image := autocrop_border final_image in
  Image_save w output_name final_image.

(** The body of [for i, box in enumerate(boxes)]; the state is the world
    and [total_images_saved]. *)
Definition save_box `{Externals} (image_file : string)
    (st : world * Z) (box : string) : result (world * Z) :=
  let total_images_saved := snd st + 1 in
  let output_name := "final_image_" ++ str total_images_saved ++ ".jpg" in
  w ← process_sub_image (fst st) image_file box output_name;
  mret (w, total_images_saved).

(** The body of [for image_file in image_files]. *)
Definition process_page `{Externals} (st : world * Z) (image_file : string)
  : result (world * Z) :=
  let boxes := find_sub_images (files (fst st)) image_file in
  for_each (save_box image_file) boxes st.

(** [main], from the list of page images on. *)
Definition main `{Externals} (w : world) (image_files : list string)
  : result (world * Z) :=
  for_each process_page image_files (w, 0).

(** The same loops, with the state in which an exception leaves them.
    [process_sub_image] changes nothing before it raises; the count has
    been raised by one when it is called. *)
Fixpoint for_each_keep {A S : Type} (body : S -> A -> S * option exn)
    (l : list A) (s : S) : S * option exn :=
  match l with
  | [] => (s, None)
  | a :: l' =>
      match body s a with
      | (s', None) => for_each_keep body l' s'
      | (s', Some e) => (s', Some e)
      end
  end.

Definition save_box_keep `{Externals} (image_file : string)
    (st : world * Z) (box : string) : (world * Z) * option exn :=
  match save_box image_file st box with
  | Ok st' => (st', None)
  | Raise e => ((fst st, snd st + 1), Some e)
  end.

Definition process_page_keep `{Externals} (st : world * Z) (image_file : string)
  : (world * Z) * option exn :=
  let boxes := find_sub_images (files (fst st)) image_file in
  for_each_keep (save_box_keep image_file) boxes st.

Definition main_run `{Externals} (w : world) (image_files : list string)
  : (world * Z) * option exn :=
  for_each_keep process_page_keep image_files (w, 0).

(** ** convert_pdf_to_images and the whole of main *)

(** A call that returns, or ends the program through [sys.exit]. *)
Inductive exit_or (A : Type) : Type :=
  | Returns (a : A)
  | SysExit (status : Z).
Arguments Returns {A} a.
Arguments SysExit {A} status.

(** The operating system and the PDF rasterizer: [tempfile.mkdtemp()],
    which names a new directory, and [pdf2image.convert_from_path(
    input_file, dpi=300, fmt='jpeg', output_folder=temp_dir)], which writes
    page images and gives their file names, or raises. *)
Class System : Type :=
  { mkdtemp : gmap string (image pixel) -> string;
    convert_from_path :
      string -> string -> gmap string (image pixel) ->
      gmap string (image pixel) * result (list string) }.

Definition convert_pdf_to_images `{System} (w : world) (input_file temp_dir : string)
  : world * exit_or (list string) :=
  let '(fs, images) := convert_from_path input_file temp_dir (files w) in
  let w := World fs (saved w) in
  match images with
  | Raise _ => (w, SysExit 1) (* except Exception: sys.exit(1) *)
  | Ok image_paths =>
      match image_paths with
      | [] => (w, SysExit 1) (* if not image_paths: sys.exit(1) *)
      | _ => (w, Returns image_paths)
      end
  end.

(** [str.lower()], character by character. *)
Definition lower_char (c : ascii) : ascii :=
  let n := nat_of_ascii c in
  if ((65 <=? n)%nat && (n <=? 90)%nat)
     || ((192 <=? n)%nat && (n <=? 222)%nat && negb (n =? 215)%nat)
  then ascii_of_nat (n + 32)
  else c.

Fixpoint lower (s : string) : string :=
  match s with
  | EmptyString => EmptyString
  | String c s' => String (lower_char c) (lower s')
  end.

(** [s.endswith(suffix)] *)
Fixpoint endswith (s suffix : string) : bool :=
  String.eqb s suffix ||
  match s with
  | EmptyString => false
  | String _ s' => endswith s' suffix
  end.

(** [shutil.rmtree(dir)]: the files below the directory are removed; a
    file is below [dir] when its path starts with [dir/]. *)
Definition below (dir name : string) : bool := String.prefix (dir ++ "/") name.

Definition rmtree (w : world) (dir : string) : world :=
  World (filter (fun entry => below dir (fst entry) = false) (files w)) (saved w).

(** How the program ends: [main] returns, [sys.exit] was called, or an
    exception was not caught. *)
Inductive ending : Type :=
  | Completed (total_images_saved : Z)
  | Exited (status : Z)
  | Crashed (e : exn).

(** [main] as a whole, for the input file of the command line. *)
Definition main_program `{Externals} `{System} (w : world) (input_file : string)
  : world * ending :=
  let temp_dir := mkdtemp (files w) in
  let '(w, how) :=
    (* try: *)
    let '(w, image_files) :=
      if endswith (lower input_file) ".pdf"
      then convert_pdf_to_images w input_file temp_dir
      else (w, Returns [input_file]) in
    match image_files with
    | SysExit status => (w, Exited status)
    | Returns image_files =>
        match main_run w image_files with
        | ((w', total_images_saved), None) => (w', Completed total_images_saved)
        | ((w', _), Some e) => (w', Crashed e)
        end
    end in
  (* finally: *)
  (rmtree w temp_dir, how).

(** ** Views of the code used to state its properties *)

(** The mask handed to [findContours] for a page. *)
Definition page_mask `{Externals} (img : image pixel) : image Z :=
  cv2.bitwise_not (cv2.threshold (point gray_of img) 200 255 cv2.THRESH_BINARY).

(** The test of [if cv2.contourArea(cnt) > 5000]. *)
Definition large (cnt : cv2.contour) : bool :=
  negb (Qle_bool (cv2.contourArea cnt) 5000).

(** The string appended for a contour that passes the test. *)
Definition box_of (cnt : cv2.contour) : string :=
  let '(x, y, w, h) := cv2.boundingRect cnt in format_box w h x y.

(** The header band of a rotation candidate and the image given to the
    text recognition. *)
Definition top_slice_of (cropped_img : image pixel) (rotation : Z) : image pixel :=
  let rotated_img := PIL.rotate black rotation cropped_img in
  PIL.crop black
    (0, 0, Z.of_nat (width rotated_img), Z.of_nat (height rotated_img) / 10) rotated_img.

Definition ocr_slice_of `{Externals} (cropped_img : image pixel) (rotation : Z) : image Z :=
  cv2.threshold (point gray_of (top_slice_of cropped_img rotation)) 128 255
    cv2.THRESH_BINARY_INV.

(** What the search learns from one candidate: [Ok (Some text)] when the
    recognition ran and gave [text] (stripped), [Ok None] when the
    candidate was skipped or its recognition raised, [Raise] when the gray
    conversion raised. *)
Definition candidate_text `{Externals} (cropped_img : image pixel) (rotation : Z)
  : result (option string) :=
  let rotated_img := PIL.rotate black rotation cropped_img in
  if Z.of_nat (height rotated_img) / 10 =? 0 then Ok None
  else
    gray_slice ← cvtColor_GRAY (Some (top_slice_of cropped_img rotation));
    if mean_lt gray_slice 100 then
      match image_to_string (ocr_slice_of cropped_img rotation) with
      | Ok text => Ok (Some (strip text))
      | Raise _ => Ok None
      end
    else Ok None.

(** A candidate qualifies with [text] when its recognized text holds a
    space. *)
Definition qualifies `{Externals} (cropped_img : image pixel) (rotation : Z)
    (text : string) : Prop :=
  candidate_text cropped_img rotation = Ok (Some text) /\ has_space text = true.

(** What holds of the best candidate once the rotations [done] have been
    tried: nothing qualified and the search is where it started, or the
    best candidate qualifies, those tried before it are strictly shorter
    and those tried after it are not longer. *)
Definition kept `{Externals} (cropped_img : image pixel) (done : list Z) (st : search)
  : Prop :=
  (st = search_start /\ forall r t, In r done -> ~ qualifies cropped_img r t) \/
  (found_orientation st = true /\
   exists before after,
     done = (before ++ best_rotation st :: after)%list /\
     qualifies cropped_img (best_rotation st) (best_text st) /\
     (forall r t, In r before -> qualifies cropped_img r t ->
                  len t < len (best_text st)) /\
     (forall r t, In r after -> qualifies cropped_img r t ->
                  len t <= len (best_text st))).

Definition output_name_of (k : Z) : string := "final_image_" ++ str k ++ ".jpg".

(** The integers [k+1 .. k+n]. *)
Definition count_from (k : Z) (n : nat) : list Z :=
  List.map (fun i => k + Z.of_nat i) (seq 1 n).

(** A box string as the detector writes it. *)
Definition detector_box (box : string) : Prop :=
  exists cnt, large cnt = true /\ box = box_of cnt.

(** Every box detected during a run of [main], page after page. *)
Fixpoint detected `{Externals} (st : world * Z) (image_files : list string)
  : list string :=
  match image_files with
  | [] => []
  | image_file :: rest =>
      find_sub_images (files (fst st)) image_file ++
      match process_page st image_file with
      | Ok st' => detected st' rest
      | Raise _ => []
      end
  end.

(** The digits that [str] prints for an integer, without its sign. *)
Definition digits_of (n : Z) : string :=
  NilEmpty.string_of_uint
    match n with
    | Z0 => Decimal.D0 Decimal.Nil
    | Zpos p => Pos.to_uint p
    | Zneg p => Pos.to_uint p
    end.

Fixpoint all_digits (s : string) : bool :=
  match s with
  | EmptyString => true
  | String c s' => is_digit c && all_digits s'
  end.

Definition is_gray (p : pixel) : Prop := red p = green p /\ green p = blue p.

(** An image whose rows agree with its size. *)
Definition well_formed {A} (im : image A) : Prop :=
  List.length (rows im) = height im /\
  List.Forall (fun row => List.length row = width im) (rows im).

(** The coordinates of the non-zero pixels, in the order [getbbox] meets
    them. *)
Fixpoint row_points (y x : Z) (row : list Z) : list (Z * Z) :=
  match row with
  | [] => []
  | v :: row' => ((if v =? 0 then [] else [(x, y)]) ++ row_points y (x + 1) row')%list
  end.

Fixpoint rows_points (y : Z) (rs : list (list Z)) : list (Z * Z) :=
  match rs with
  | [] => []
  | row :: rs' => (row_points y 0 row ++ rows_points (y + 1) rs')%list
  end.

(** [box] is the tight box around the points [pts]: it holds them all and
    each of its four sides passes through one of them. *)
Definition tight_box (pts : list (Z * Z)) (box : Z * Z * Z * Z) : Prop :=
  let '(l, u, r, b) := box in
  List.Forall (fun p => l <= fst p < r /\ u <= snd p < b) pts /\
  (exists p, In p pts /\ fst p = l) /\
  (exists p, In p pts /\ fst p = r - 1) /\
  (exists p, In p pts /\ snd p = u) /\
  (exists p, In p pts /\ snd p = b - 1).

(** The gray level the Border Cropper sees at a pixel of its input. *)
Definition gray_at (im : image pixel) (x y : nat) : Z :=
  PIL.rgb2l (getpixel black im x y).

(** The last character of a string. *)
Fixpoint last_char (s : string) : option ascii :=
  match s with
  | EmptyString => None
  | String c EmptyString => Some c
  | String _ s' => last_char s'
  end.

(** A text with no white space at either end. *)
Definition stripped (s : string) : Prop :=
  match s with
  | EmptyString => True
  | String c _ =>
      isspace c = false /\ exists d, last_char s = Some d /\ isspace d = false
  end.

(** The contour of an upright rectangle, corner by corner. *)
Definition rectangle (x0 y0 x1 y1 : Z) : cv2.contour :=
  [(x0, y0); (x0, y1); (x1, y1); (x1, y0)].

(** What has been saved when a loop ends, with or without an exception:
    [m] files named from the count on, the count being [m] further, and
    one more when an exception ended the loop. *)
Definition saved_since `{Externals} (st st' : world * Z) (out : option exn) (m : nat)
  : Prop :=
  saved (fst st') =
    (saved (fst st) ++ List.map output_name_of (count_from (snd st) m))%list /\
  List.Forall (fun name => is_Some (files (fst st') !! name))
    (List.map output_name_of (count_from (snd st) m)) /\
  (forall name, is_Some (files (fst st) !! name) -> is_Some (files (fst st') !! name)) /\
  snd st' = snd st + Z.of_nat m + match out with Some _ => 1 | None => 0 end.

(** Pillow opens every file that OpenCV reads, and every write succeeds. *)
Definition pillow_reads `{Externals} : Prop :=
  forall name img, exists img', pillow_open name img = Ok img'.

Definition disk_writes `{Externals} : Prop :=
  forall name img, save_error name img = None.

(** ** A concrete setting: a dark photograph with a light caption on a
    white page, a contour finder that returns the corners of the dark
    area, and a recognizer that fails on a light first pixel. *)

Module Sample.

Definition corners (im : image Z) : result (list cv2.contour) :=
  match PIL.getbbox im with
  | None => Ok []
  | Some (l, u, r, b) => Ok [[(l, u); (l, b - 1); (r - 1, b - 1); (r - 1, u)]]
  end.

Definition recognize (im : image Z) : result string :=
  match rows im with
  | (v :: _) :: _ =>
      if v =? 0 then Raise TesseractError
      else if (width im <? 95)%nat then Ok " a text " else Ok "a side"
  | _ => Ok ""
  end.

Definition externals : Externals :=
  {| gray_of := PIL.rgb2l; findContours := corners; image_to_string := recognize;
     pillow_open := fun _ img => Ok img; save_error := fun _ _ => None |}.

(** The same, with a Pillow that cannot identify a Radiance picture. *)
Definition no_hdr : Externals :=
  {| gray_of := PIL.rgb2l; findContours := corners; image_to_string := recognize;
     pillow_open := fun name img =>
       if endswith (lower name) ".hdr" then Raise OSError else Ok img;
     save_error := fun _ _ => None |}.

Definition page : image pixel :=
  tabulate 120 100
    (fun x y =>
       if ((10 <=? x) && (x <? 110) && (5 <=? y) && (y <? 95))%nat
       then (if ((100 <=? x) && (y <? 25))%nat then RGB 250 250 250 else RGB 20 20 20)
       else white).

Definition blank_page : image pixel := tabulate 30 20 (fun _ _ => white).

Definition start : world :=
  World (<["blank.jpg" := blank_page]> {["page.jpg" := page]}) [].

(** The same as [externals], on a disk where nothing can be written. *)
Definition full_disk : Externals :=
  {| gray_of := PIL.rgb2l; findContours := corners; image_to_string := recognize;
     pillow_open := fun _ img => Ok img; save_error := fun _ _ => Some OSError |}.

(** A directory where the page is a Radiance picture, which OpenCV reads. *)
Definition hdr_start : world :=
  World (<["page.hdr" := page]> {["page.jpg" := page]}) [].

Definition photo : image pixel := PIL.crop black (10, 5, 110, 95) page.

(** A rasterizer that knows one document of two pages, and a temporary
    directory. *)
Definition rasterize (input_file temp_dir : string) (fs : gmap string (image pixel))
  : gmap string (image pixel) * result (list string) :=
  if String.eqb input_file "scan.PDF" then
    (<[temp_dir ++ "/2.jpg" := blank_page]> (<[temp_dir ++ "/1.jpg" := page]> fs),
     Ok [temp_dir ++ "/1.jpg"; temp_dir ++ "/2.jpg"])
  else if String.eqb input_file "empty.pdf" then (fs, Ok [])
  else (fs, Raise FileNotFoundError).

Definition system : System :=
  {| mkdtemp := fun _ => "/tmp/tmpk3"; convert_from_path := rasterize |}.

(** A red patch with a white margin of two columns and one row. *)
Definition framed : image pixel :=
  tabulate 8 5
    (fun x y =>
       if ((2 <=? x) && (x <? 6) && (1 <=? y) && (y <? 4))%nat
       then RGB 200 30 30 else white).

End Sample.

(** * Properties *)

(** ** Images *)

Section ImageFacts.
Context {A B : Type}.

Lemma pixels_point (f : A -> B) (im : image A) :
  pixels (point f im) = List.map f (pixels im).
Proof.
  unfold pixels, point; simpl.
  induction (rows im) as [|row rs IH]; simpl; [reflexivity|].
  rewrite List.map_app, IH. reflexivity.
Qed.

Lemma point_ext_in (f g : A -> B) (im : image A) :
  List.Forall (fun a => f a = g a) (pixels im) -> point f im = point g im.
Proof.
  unfold pixels, point. intros Hall. f_equal.
  induction (rows im) as [|row rs IH]; simpl in *; [reflexivity|].
  apply List.Forall_app in Hall as [Hrow Hrs].
  f_equal; [|auto].
  apply List.map_ext_in. intros a Ha.
  rewrite List.Forall_forall in Hrow. auto.
Qed.

Lemma point_id (f : A -> A) (im : image A) :
  List.Forall (fun a => f a = a) (pixels im) -> point f im = im.
Proof.
  destruct im as [w h rs]. unfold pixels, point; simpl. intros Hall. f_equal.
  induction rs as [|row rs IH]; simpl in *; [reflexivity|].
  apply List.Forall_app in Hall as [Hrow Hrs].
  f_equal; [|auto].
  rewrite <- (List.map_id row) at 2.
  apply List.map_ext_in. intros a Ha.
  rewrite List.Forall_forall in Hrow. auto.
Qed.

End ImageFacts.

Lemma point_point {A B C} (f : A -> B) (g : B -> C) (im : image A) :
  point g (point f im) = point (fun a => g (f a)) im.
Proof.
  unfold point; simpl. f_equal.
  rewrite List.map_map. apply List.map_ext. intros row. apply List.map_map.
Qed.

(** ** Border Cropper *)

Lemma extend_Some acc x y : PIL.extend acc x y <> None.
Proof. destruct acc as [[[[l u] r] b]|]; discriminate. Qed.

Lemma scan_row_None y row : forall x acc,
  PIL.scan_row y x row acc = None <-> acc = None /\ List.Forall (fun v => v = 0) row.
Proof.
  induction row as [|v row IH]; intros x acc; simpl.
  - split; [intros ->; split; [reflexivity | constructor] | intros [-> _]; reflexivity].
  - rewrite IH. destruct (Z.eqb_spec v 0) as [->|Hv].
    + split; intros [Hacc Hrow]; split; auto. now inversion Hrow.
    + split.
      * intros [Hacc _]. now apply extend_Some in Hacc.
      * intros [_ Hrow]. inversion Hrow; subst. contradiction.
Qed.

Lemma scan_rows_None rs : forall y acc,
  PIL.scan_rows y rs acc = None <->
  acc = None /\ List.Forall (fun v => v = 0) (List.concat rs).
Proof.
  induction rs as [|row rs IH]; intros y acc; simpl.
  - split; [intros ->; split; [reflexivity | constructor] | intros [-> _]; reflexivity].
  - rewrite IH, scan_row_None, List.Forall_app. tauto.
Qed.

Lemma getbbox_None (im : image Z) :
  PIL.getbbox im = None <-> List.Forall (fun v => v = 0) (pixels im).
Proof. unfold PIL.getbbox. rewrite scan_rows_None. unfold pixels. tauto. Qed.

Lemma inverted_gray (im : image pixel) :
  PIL.invert (PIL.convert_L im) = point (fun p => 255 - PIL.rgb2l p) im.
Proof. unfold PIL.invert, PIL.convert_L. apply point_point. Qed.

Lemma autocrop_border_gray (im : image pixel) :
  List.Forall is_gray (pixels (autocrop_border im)).
Proof.
  unfold autocrop_border, PIL.convert_RGB. rewrite pixels_point.
  apply List.Forall_forall. intros p Hp.
  apply List.in_map_iff in Hp as (v & <- & _). split; reflexivity.
Qed.

Lemma autocrop_border_no_box (im : image pixel) :
  PIL.getbbox (PIL.invert (PIL.convert_L im)) = None ->
  autocrop_border im = point (fun _ => white) im.
Proof.
  intros Hnone. unfold autocrop_border. rewrite Hnone.
  apply getbbox_None in Hnone.
  rewrite inverted_gray in *. rewrite pixels_point in Hnone.
  unfold PIL.convert_RGB, PIL.invert. rewrite !point_point.
  apply point_ext_in.
  rewrite List.Forall_map in Hnone.
  eapply List.Forall_impl; [|exact Hnone]. simpl. intros p Hp.
  rewrite Hp. reflexivity.
Qed.

Lemma white_no_box (im : image pixel) :
  List.Forall (fun p => p = white) (pixels im) ->
  PIL.getbbox (PIL.invert (PIL.convert_L im)) = None.
Proof.
  intros Hwhite. apply getbbox_None. rewrite inverted_gray, pixels_point.
  rewrite List.Forall_map. eapply List.Forall_impl; [|exact Hwhite].
  simpl. intros p ->. reflexivity.
Qed.

(** C8, as the code has it.  When the bounding-box computation over the
    inverted grayscale image yields no box, no crop is applied and the
    emitted image is the all-white image of the input's size; a blank
    (all white) input yields no box and is emitted unchanged. *)
Theorem blank_image_border_crop (im : image pixel) :
  (PIL.getbbox (PIL.invert (PIL.convert_L im)) = None ->
   autocrop_border im = point (fun _ => white) im /\
   width (autocrop_border im) = width im /\
   height (autocrop_border im) = height im) /\
  (List.Forall (fun p => p = white) (pixels im) ->
   PIL.getbbox (PIL.invert (PIL.convert_L im)) = None /\
   autocrop_border im = im).
Proof.
  split.
  - intros Hnone. rewrite (autocrop_border_no_box im Hnone). auto.
  - intros Hwhite. pose proof (white_no_box im Hwhite) as Hnone.
    split; [exact Hnone|].
    rewrite (autocrop_border_no_box im Hnone).
    apply point_id. eapply List.Forall_impl; [|exact Hwhite]. simpl. auto.
Qed.

Lemma blank_image_border_crop_witness :
  PIL.getbbox (PIL.invert (PIL.convert_L Sample.blank_page)) = None /\
  autocrop_border Sample.blank_page = Sample.blank_page.
Proof.
  apply (blank_image_border_crop Sample.blank_page).
  vm_compute. repeat constructor.
Defined.

(** C8 as stated fails: a uniform image of the near-white colour
    (255, 255, 254) has gray level 255, so the bounding-box computation
    yields no box, and the emitted image is pure white, not the input.
    A uniform image of any colour that is not a gray is changed as well:
    uniform red comes out as the gray (76, 76, 76). *)
Lemma blank_image_not_unchanged :
  ~ (forall im : image pixel,
       (forall p q, In p (pixels im) -> In q (pixels im) -> p = q) ->
       PIL.getbbox (PIL.invert (PIL.convert_L im)) = None ->
       autocrop_border im = im) /\
  autocrop_border (Image 2 1 [[RGB 255 255 254; RGB 255 255 254]]) =
    Image 2 1 [[white; white]] /\
  autocrop_border (Image 1 1 [[RGB 255 0 0]]) = Image 1 1 [[RGB 76 76 76]].
Proof.
  split; [|split; reflexivity].
  intros Hclaim.
  specialize (Hclaim (Image 2 1 [[RGB 255 255 254; RGB 255 255 254]])).
  assert (Hne : autocrop_border (Image 2 1 [[RGB 255 255 254; RGB 255 255 254]])
                <> Image 2 1 [[RGB 255 255 254; RGB 255 255 254]])
    by (vm_compute; discriminate).
  apply Hne, Hclaim.
  - simpl. intros p q [<-|[<-|[]]] [<-|[<-|[]]]; reflexivity.
  - reflexivity.
Qed.

Lemma Image_save_Ok `{Externals} (w w' : world) (name : string) (img : image pixel) :
  Image_save w name img = Ok w' ->
  w' = written w name img /\ Img.empty img = false /\ save_error name img = None.
Proof.
  unfold Image_save. destruct (Img.empty img); [discriminate|].
  destruct (save_error name img); [discriminate|]. intros [= <-]. auto.
Qed.

(** C10.  The Border Cropper emits gray pixels only, so every image that
    [process_sub_image] saves has equal red, green and blue values in
    every pixel. *)
Theorem saved_image_is_gray `{Externals} :
  (forall im : image pixel, List.Forall is_gray (pixels (autocrop_border im))) /\
  (forall (w w' : world) (input_image box output_name : string),
     process_sub_image w input_image box output_name = Ok w' ->
     exists final_image,
       files w' !! output_name = Some final_image /\
       saved w' = (saved w ++ [output_name])%list /\
       List.Forall is_gray (pixels final_image)).
Proof.
  split; [exact autocrop_border_gray|].
  intros w w' input_image box output_name Hrun.
  unfold process_sub_image in Hrun.
  destruct (parse_box box) as [[[[bw bh] bx] by_]|e]; [|discriminate].
  simpl in Hrun.
  destruct (Image_open w input_image) as [img|e]; [|discriminate].
  simpl in Hrun.
  destruct (detect_orientation _) as [st|e]; [|discriminate].
  simpl in Hrun. apply Image_save_Ok in Hrun as (-> & _).
  eexists. split; [|split].
  - simpl. apply lookup_insert_eq.
  - reflexivity.
  - apply autocrop_border_gray.
Qed.

Lemma saved_image_is_gray_witness :
  exists w' final_image,
    process_sub_image (H := Sample.externals) Sample.start
      "page.jpg" "100x90+10+5" "final_image_1.jpg" = Ok w' /\
    files w' !! "final_image_1.jpg" = Some final_image /\
    List.Forall is_gray (pixels final_image).
Proof.
  destruct (process_sub_image (H := Sample.externals) Sample.start
              "page.jpg" "100x90+10+5" "final_image_1.jpg") as [w'|e] eqn:Hrun;
    [|vm_compute in Hrun; discriminate].
  destruct (proj2 (saved_image_is_gray (H := Sample.externals)) _ _ _ _ _ Hrun)
    as (final_image & Hfile & _ & Hgray).
  exists w', final_image. auto.
Defined.

(** ** Box strings: [str], [re.findall] and [int] *)

Lemma string_app_cons (c : ascii) (a b : string) :
  String c a ++ b = String c (a ++ b).
Proof. reflexivity. Qed.

Lemma string_app_nil (b : string) : "" ++ b = b.
Proof. reflexivity. Qed.

Lemma string_app_assoc (a b c : string) : (a ++ b) ++ c = a ++ (b ++ c).
Proof.
  induction a as [|ch a IH]; [reflexivity|].
  rewrite !string_app_cons. now rewrite IH.
Qed.

Lemma string_app_empty_r (a : string) : a ++ "" = a.
Proof.
  induction a as [|ch a IH]; [reflexivity|].
  rewrite string_app_cons. now rewrite IH.
Qed.

Lemma uint_string_digits (d : Decimal.uint) :
  all_digits (NilEmpty.string_of_uint d) = true.
Proof. induction d; simpl; auto. Qed.

Lemma uint_string_nonempty (d : Decimal.uint) :
  d <> Decimal.Nil -> NilEmpty.string_of_uint d <> "".
Proof. destruct d; simpl; congruence. Qed.

Lemma int_from_uint (d : Decimal.uint) : forall a : Decimal.uint,
  int_from (NilEmpty.string_of_uint d) (Z.of_N (Unsigned.of_lu a)) =
  Z.of_N (Unsigned.of_lu (Decimal.revapp d a)).
Proof.
  induction d; intros a; simpl NilEmpty.string_of_uint; simpl Decimal.revapp;
    [reflexivity | rewrite <- IHd; cbn [int_from]; f_equal;
                   cbn [Unsigned.of_lu];
                   match goal with
                   | |- context [nat_of_ascii ?c] =>
                       let v := eval vm_compute in (nat_of_ascii c) in
                       change (nat_of_ascii c) with v
                   end; lia ..].
Qed.

Lemma int_uint (d : Decimal.uint) :
  int (NilEmpty.string_of_uint d) = Z.of_N (Pos.of_uint d).
Proof.
  unfold int. rewrite Unsigned.of_uint_alt. unfold Decimal.rev.
  rewrite <- int_from_uint. reflexivity.
Qed.

Lemma digits_of_nonempty (n : Z) : digits_of n <> "".
Proof.
  unfold digits_of. apply uint_string_nonempty.
  destruct n; [discriminate | apply Unsigned.to_uint_nonnil ..].
Qed.

Lemma digits_of_digits (n : Z) : all_digits (digits_of n) = true.
Proof. apply uint_string_digits. Qed.

Lemma int_digits_of (n : Z) : int (digits_of n) = Z.abs n.
Proof.
  unfold digits_of. rewrite int_uint.
  destruct n; [reflexivity | now rewrite DecimalPos.Unsigned.of_to ..].
Qed.

Lemma NilZero_NilEmpty (d : Decimal.uint) :
  d <> Decimal.Nil -> NilZero.string_of_uint d = NilEmpty.string_of_uint d.
Proof. destruct d; simpl; congruence. Qed.

Lemma str_digits (n : Z) :
  str n = if n <? 0 then String "-" (digits_of n) else digits_of n.
Proof.
  unfold str, digits_of. destruct n as [|p|p]; simpl; [reflexivity | |].
  - apply NilZero_NilEmpty, Unsigned.to_uint_nonnil.
  - f_equal. apply NilZero_NilEmpty, Unsigned.to_uint_nonnil.
Qed.

Lemma findall_run (ds : string) : forall (s run : string),
  all_digits ds = true ->
  findall_digits_from (ds ++ s) run = findall_digits_from s (run ++ ds).
Proof.
  induction ds as [|c ds IH]; intros s run Hds; simpl in Hds.
  - now rewrite string_app_nil, string_app_empty_r.
  - apply andb_prop in Hds as [Hc Hds].
    rewrite string_app_cons. simpl. rewrite Hc, IH by assumption.
    now rewrite string_app_assoc.
Qed.

Lemma close_run_nonempty (run : string) : run <> "" -> close_run run = [run].
Proof. destruct run; [congruence | reflexivity]. Qed.

(** The runs of [str n] followed by a separator and more text. *)
Lemma findall_str_sep (n : Z) (c : ascii) (s : string) :
  is_digit c = false ->
  findall_digits (str n ++ String c s) = digits_of n :: findall_digits s.
Proof.
  intros Hc. unfold findall_digits. rewrite str_digits.
  assert (Hrun : findall_digits_from (digits_of n ++ String c s) "" =
                 digits_of n :: findall_digits_from s "").
  { rewrite findall_run by apply digits_of_digits.
    rewrite string_app_nil. simpl. rewrite Hc.
    now rewrite close_run_nonempty by apply digits_of_nonempty. }
  destruct (n <? 0); [|exact Hrun].
  rewrite string_app_cons. simpl. exact Hrun.
Qed.

Lemma findall_str_end (n : Z) : findall_digits (str n) = [digits_of n].
Proof.
  unfold findall_digits. rewrite str_digits.
  assert (Hrun : findall_digits_from (digits_of n) "" = [digits_of n]).
  { rewrite <- (string_app_empty_r (digits_of n)) at 1.
    rewrite findall_run by apply digits_of_digits.
    rewrite string_app_nil. simpl.
    now rewrite close_run_nonempty by apply digits_of_nonempty. }
  destruct (n <? 0); [|exact Hrun]. simpl. exact Hrun.
Qed.

Lemma findall_format_box (w h x y : Z) :
  List.map int (findall_digits (format_box w h x y)) =
  [Z.abs w; Z.abs h; Z.abs x; Z.abs y].
Proof.
  unfold format_box.
  change (str w ++ "x" ++ str h ++ "+" ++ str x ++ "+" ++ str y)
    with (str w ++ String "x" (str h ++ String "+" (str x ++ String "+" (str y)))).
  rewrite !findall_str_sep by reflexivity. rewrite findall_str_end.
  simpl. now rewrite !int_digits_of.
Qed.

Lemma parse_format_box (w h x y : Z) :
  parse_box (format_box w h x y) = Ok (Z.abs w, Z.abs h, Z.abs x, Z.abs y).
Proof. unfold parse_box. now rewrite findall_format_box. Qed.

(** C9.  A box of non-negative integers, written as WxH+X+Y and read back
    through the runs of digits, is recovered exactly. *)
Theorem box_string_round_trip (w h x y : Z) :
  0 <= w -> 0 <= h -> 0 <= x -> 0 <= y ->
  List.map int (findall_digits (format_box w h x y)) = [w; h; x; y] /\
  parse_box (format_box w h x y) = Ok (w, h, x, y).
Proof.
  intros Hw Hh Hx Hy.
  rewrite parse_format_box, findall_format_box.
  rewrite !Z.abs_eq by assumption. split; reflexivity.
Qed.

Lemma box_string_round_trip_witness :
  List.map int (findall_digits (format_box 1240 877 0 35)) = [1240; 877; 0; 35] /\
  parse_box (format_box 1240 877 0 35) = Ok (1240, 877, 0, 35).
Proof. apply (box_string_round_trip 1240 877 0 35); lia. Defined.

(** ** Region Detector *)

Section RegionDetector.
Context `{Externals}.

Lemma threshold_binary_pixel (v : Z) :
  (200 < v -> cv2.threshold_pixel 200 255 cv2.THRESH_BINARY v = 255) /\
  (v <= 200 -> cv2.threshold_pixel 200 255 cv2.THRESH_BINARY v = 0).
Proof.
  unfold cv2.threshold_pixel. destruct (Z.ltb_spec 200 v); split; intros; lia.
Qed.

Lemma page_mask_pixels (img : image pixel) :
  page_mask img = point (fun p => if 200 <? gray_of p then 0 else 255) img.
Proof.
  unfold page_mask, cv2.bitwise_not, cv2.threshold. rewrite !point_point.
  apply point_ext_in, List.Forall_forall. intros p _.
  unfold cv2.threshold_pixel. destruct (200 <? gray_of p); reflexivity.
Qed.

Lemma find_sub_images_try_read (files : gmap string (image pixel))
    (image_file : string) (img : image pixel) :
  files !! image_file = Some img ->
  Img.empty img = false ->
  find_sub_images_try files image_file =
  (contours ← findContours (page_mask img); mret (fold_left add_box contours [])).
Proof.
  intros Hfile Hsize. unfold find_sub_images_try, cvtColor_GRAY.
  rewrite Hfile, Hsize. reflexivity.
Qed.

Lemma add_boxes (contours : list cv2.contour) : forall boxes : list string,
  fold_left add_box contours boxes =
  (boxes ++ List.map box_of (List.filter large contours))%list.
Proof.
  induction contours as [|cnt contours IH]; intros boxes; simpl.
  - now rewrite List.app_nil_r.
  - rewrite IH. unfold add_box. fold (large cnt). fold (box_of cnt).
    destruct (large cnt); simpl; [|reflexivity].
    unfold box_of. destruct (cv2.boundingRect cnt) as [[[x y] w] h].
    now rewrite <- List.app_assoc.
Qed.

Lemma large_true (cnt : cv2.contour) :
  large cnt = true <-> (5000 < cv2.contourArea cnt)%Q.
Proof.
  unfold large. rewrite negb_true_iff, <- not_true_iff_false, Qle_bool_iff.
  split; [apply Qnot_le_lt | apply Qlt_not_le].
Qed.

Lemma large_false (cnt : cv2.contour) :
  large cnt = false <-> (cv2.contourArea cnt <= 5000)%Q.
Proof. unfold large. rewrite negb_false_iff. apply Qle_bool_iff. Qed.

Lemma large_nonempty (cnt : cv2.contour) : large cnt = true -> cnt <> [].
Proof. intros Hlarge ->. discriminate. Qed.

Lemma find_sub_images_found (files : gmap string (image pixel))
    (image_file : string) (img : image pixel) (contours : list cv2.contour) :
  files !! image_file = Some img ->
  Img.empty img = false ->
  findContours (page_mask img) = Ok contours ->
  find_sub_images files image_file = List.map box_of (List.filter large contours).
Proof.
  intros Hfile Hsize Hfound. unfold find_sub_images.
  rewrite (find_sub_images_try_read _ _ _ Hfile Hsize), Hfound. simpl.
  apply add_boxes.
Qed.

(** Whatever [find_sub_images] returns comes from a page that could be
    read and from contours that passed the area test. *)
Lemma find_sub_images_inv (files : gmap string (image pixel))
    (image_file box : string) :
  In box (find_sub_images files image_file) ->
  exists img contours cnt,
    files !! image_file = Some img /\ Img.empty img = false /\
    findContours (page_mask img) = Ok contours /\
    In cnt contours /\ large cnt = true /\ box = box_of cnt.
Proof.
  unfold find_sub_images, find_sub_images_try, cvtColor_GRAY.
  destruct (files !! image_file) as [img|]; [|intros []].
  destruct (Img.empty img) eqn:Hsize; [intros []|]. simpl.
  fold (page_mask img).
  destruct (findContours (page_mask img)) as [contours|e] eqn:Hfound; [|intros []].
  simpl. rewrite add_boxes. simpl. intros Hbox.
  apply List.in_map_iff in Hbox as (cnt & <- & Hcnt).
  apply List.filter_In in Hcnt as [Hcnt Hlarge].
  exists img, contours, cnt. repeat split; auto.
Qed.

(** *** Bounding rectangles *)

Lemma fold_min_le (a : Z) (l : list Z) :
  fold_right Z.min a l <= a /\ List.Forall (fun v => fold_right Z.min a l <= v) l.
Proof.
  induction l as [|v l [IHa IHl]]; simpl; [split; [lia | constructor]|].
  split; [lia|]. constructor; [lia|].
  eapply List.Forall_impl; [|exact IHl]. simpl. intros; lia.
Qed.

Lemma fold_max_ge (a : Z) (l : list Z) :
  a <= fold_right Z.max a l /\ List.Forall (fun v => v <= fold_right Z.max a l) l.
Proof.
  induction l as [|v l [IHa IHl]]; simpl; [split; [lia | constructor]|].
  split; [lia|]. constructor; [lia|].
  eapply List.Forall_impl; [|exact IHl]. simpl. intros; lia.
Qed.

Lemma fold_min_bound (lo a : Z) (l : list Z) :
  lo <= a -> List.Forall (fun v => lo <= v) l -> lo <= fold_right Z.min a l.
Proof. intros Ha Hl. induction Hl; simpl; lia. Qed.

Lemma fold_max_bound (hi a : Z) (l : list Z) :
  a <= hi -> List.Forall (fun v => v <= hi) l -> fold_right Z.max a l <= hi.
Proof. intros Ha Hl. induction Hl; simpl; lia. Qed.

Lemma boundingRect_positive (cnt : cv2.contour) (x y w h : Z) :
  cnt <> [] -> cv2.boundingRect cnt = (x, y, w, h) -> 0 < w /\ 0 < h.
Proof.
  destruct cnt as [|p ps]; [congruence|]. intros _. simpl. intros [= <- <- <- <-].
  pose proof (fold_min_le (fst p) (List.map fst ps)) as [? _].
  pose proof (fold_max_ge (fst p) (List.map fst ps)) as [? _].
  pose proof (fold_min_le (snd p) (List.map snd ps)) as [? _].
  pose proof (fold_max_ge (snd p) (List.map snd ps)) as [? _].
  lia.
Qed.

Lemma boundingRect_inside (cnt : cv2.contour) (x y w h W Ht : Z) :
  cnt <> [] ->
  List.Forall (fun p => 0 <= fst p < W /\ 0 <= snd p < Ht) cnt ->
  cv2.boundingRect cnt = (x, y, w, h) ->
  0 <= x /\ 0 <= y /\ x + w <= W /\ y + h <= Ht.
Proof.
  destruct cnt as [|p ps]; [congruence|]. intros _ Hin. simpl.
  intros [= <- <- <- <-].
  inversion Hin as [|? ? Hp Hps]; subst.
  assert (Hx0 : List.Forall (fun v => 0 <= v) (List.map fst ps)).
  { rewrite List.Forall_map. eapply List.Forall_impl; [|exact Hps]. simpl. tauto. }
  assert (Hx1 : List.Forall (fun v => v <= W - 1) (List.map fst ps)).
  { rewrite List.Forall_map. eapply List.Forall_impl; [|exact Hps]. simpl. lia. }
  assert (Hy0 : List.Forall (fun v => 0 <= v) (List.map snd ps)).
  { rewrite List.Forall_map. eapply List.Forall_impl; [|exact Hps]. simpl. tauto. }
  assert (Hy1 : List.Forall (fun v => v <= Ht - 1) (List.map snd ps)).
  { rewrite List.Forall_map. eapply List.Forall_impl; [|exact Hps]. simpl. lia. }
  pose proof (fold_min_bound 0 (fst p) _ ltac:(lia) Hx0).
  pose proof (fold_max_bound (W - 1) (fst p) _ ltac:(lia) Hx1).
  pose proof (fold_min_bound 0 (snd p) _ ltac:(lia) Hy0).
  pose proof (fold_max_bound (Ht - 1) (snd p) _ ltac:(lia) Hy1).
  lia.
Qed.

End RegionDetector.

(** C5, as the code has it.  In the binarization step a gray pixel above
    200 becomes 255 and a pixel of at most 200 becomes 0; the mask handed
    to the contour extraction is the inverse, 0 above 200 and 255
    elsewhere. *)
Theorem binarization_threshold `{Externals} :
  (forall v : Z,
     (200 < v -> cv2.threshold_pixel 200 255 cv2.THRESH_BINARY v = 255) /\
     (v <= 200 -> cv2.threshold_pixel 200 255 cv2.THRESH_BINARY v = 0)) /\
  (forall gray : image Z,
     pixels (cv2.threshold gray 200 255 cv2.THRESH_BINARY) =
     List.map (fun v => if 200 <? v then 255 else 0) (pixels gray)) /\
  (forall (files : gmap string (image pixel)) (image_file : string) (img : image pixel),
     files !! image_file = Some img ->
     Img.empty img = false ->
     page_mask img = point (fun p => if 200 <? gray_of p then 0 else 255) img /\
     find_sub_images_try files image_file =
     (contours ← findContours (page_mask img); mret (fold_left add_box contours []))).
Proof.
  split; [exact threshold_binary_pixel|]. split.
  - intros gray. unfold cv2.threshold. apply pixels_point.
  - intros files image_file img Hfile Hsize. split.
    + apply page_mask_pixels.
    + now apply find_sub_images_try_read.
Qed.

Lemma binarization_threshold_witness :
  cv2.threshold_pixel 200 255 cv2.THRESH_BINARY 201 = 255 /\
  cv2.threshold_pixel 200 255 cv2.THRESH_BINARY 200 = 0 /\
  page_mask (H := Sample.externals) Sample.page =
  point (fun p => if 200 <? PIL.rgb2l p then 0 else 255) Sample.page.
Proof.
  pose proof (binarization_threshold (H := Sample.externals)) as (Hpixel & _ & Hpage).
  split; [apply (proj1 (Hpixel 201)); lia|].
  split; [apply (proj2 (Hpixel 200)); lia|].
  apply (Hpage (files Sample.start) "page.jpg" Sample.page); reflexivity.
Defined.

(** C5 as stated fails at the boundary: a gray pixel of exactly 200 becomes
    background, not foreground. *)
Lemma threshold_at_200_is_background :
  cv2.threshold (Image 1 1 [[200]]) 200 255 cv2.THRESH_BINARY = Image 1 1 [[0]] /\
  ~ (forall gray : image Z,
       pixels (cv2.threshold gray 200 255 cv2.THRESH_BINARY) =
       List.map (fun v => if 200 <=? v then 255 else 0) (pixels gray)).
Proof.
  split; [reflexivity|].
  intros Hclaim. specialize (Hclaim (Image 1 1 [[200]])). discriminate.
Qed.

(** C6.  The detector drops every contour whose area is at most 5000 and
    emits, for each contour above 5000 and in their order, the one box
    that is the contour's bounding rectangle. *)
Theorem boxes_of_large_contours `{Externals}
    (files : gmap string (image pixel)) (image_file : string)
    (img : image pixel) (contours : list cv2.contour) :
  files !! image_file = Some img ->
  Img.empty img = false ->
  findContours (page_mask img) = Ok contours ->
  find_sub_images files image_file =
    List.map (fun cnt => let '(x, y, w, h) := cv2.boundingRect cnt in format_box w h x y)
      (List.filter (fun cnt => negb (Qle_bool (cv2.contourArea cnt) 5000)) contours) /\
  (forall cnt, (cv2.contourArea cnt <= 5000)%Q ->
     List.filter (fun cnt => negb (Qle_bool (cv2.contourArea cnt) 5000)) [cnt] = []) /\
  (forall cnt, (5000 < cv2.contourArea cnt)%Q ->
     List.filter (fun cnt => negb (Qle_bool (cv2.contourArea cnt) 5000)) [cnt] = [cnt]).
Proof.
  intros Hfile Hsize Hfound. split; [|split].
  - exact (find_sub_images_found files image_file img contours Hfile Hsize Hfound).
  - intros cnt Harea. apply large_false in Harea. unfold large in Harea.
    simpl. now rewrite Harea.
  - intros cnt Harea. apply large_true in Harea. unfold large in Harea.
    simpl. now rewrite Harea.
Qed.

Lemma boxes_of_large_contours_witness :
  find_sub_images (H := Sample.externals) (files Sample.start) "page.jpg" =
  ["100x90+10+5"].
Proof.
  pose proof (boxes_of_large_contours (H := Sample.externals)
                (files Sample.start) "page.jpg" Sample.page
                [[(10, 5); (10, 94); (109, 94); (109, 5)]]) as Hboxes.
  destruct Hboxes as [Hboxes _]; [reflexivity | reflexivity | reflexivity|].
  rewrite Hboxes. reflexivity.
Defined.

(** C2.  When the contours found on a page lie on the page, every box the
    detector returns has x >= 0, y >= 0, width > 0, height > 0 and ends
    within the page; the crop step reads the same four numbers back. *)
Theorem boxes_inside_page `{Externals}
    (files : gmap string (image pixel)) (image_file : string) (img : image pixel) :
  files !! image_file = Some img ->
  (forall contours, findContours (page_mask img) = Ok contours ->
     List.Forall
       (List.Forall (fun p => 0 <= fst p < Z.of_nat (width img) /\
                              0 <= snd p < Z.of_nat (height img)))
       contours) ->
  forall box, In box (find_sub_images files image_file) ->
    exists w h x y,
      box = format_box w h x y /\
      parse_box box = Ok (w, h, x, y) /\
      0 <= x /\ 0 <= y /\ 0 < w /\ 0 < h /\
      x + w <= Z.of_nat (width img) /\ y + h <= Z.of_nat (height img).
Proof.
  intros Hfile Hon box Hbox.
  apply find_sub_images_inv in Hbox
    as (img' & contours & cnt & Hfile' & _ & Hfound & Hcnt & Hlarge & ->).
  rewrite Hfile in Hfile'. injection Hfile' as <-.
  specialize (Hon contours Hfound).
  rewrite List.Forall_forall in Hon. specialize (Hon cnt Hcnt).
  apply large_nonempty in Hlarge.
  unfold box_of. destruct (cv2.boundingRect cnt) as [[[x y] w] h] eqn:Hrect.
  destruct (boundingRect_positive cnt x y w h Hlarge Hrect) as [Hw Hh].
  destruct (boundingRect_inside cnt x y w h _ _ Hlarge Hon Hrect) as (Hx & Hy & Hr & Hb).
  exists w, h, x, y. rewrite parse_format_box.
  rewrite !Z.abs_eq by lia. repeat split; auto.
Qed.

Lemma boxes_inside_page_witness :
  exists w h x y,
    "100x90+10+5" = format_box w h x y /\
    parse_box "100x90+10+5" = Ok (w, h, x, y) /\
    0 <= x /\ 0 <= y /\ 0 < w /\ 0 < h /\
    x + w <= 120 /\ y + h <= 100.
Proof.
  apply (boxes_inside_page (H := Sample.externals)
           (files Sample.start) "page.jpg" Sample.page).
  - reflexivity.
  - intros contours Hfound. vm_compute in Hfound. injection Hfound as <-.
    repeat constructor; simpl; lia.
  - vm_compute. left. reflexivity.
Defined.

(** ** Orientation Resolver *)

Section OrientationResolver.
Context `{Externals}.

Lemma rotate_not_empty {A} (fill : A) (angle : Z) (im : image A) :
  Img.empty im = false -> Img.empty (PIL.rotate fill angle im) = false.
Proof.
  intros Hsize. unfold PIL.rotate.
  destruct (angle mod 360 =? 0); [assumption|].
  unfold Img.empty in *. apply orb_false_iff in Hsize as [Hw Hh].
  destruct (angle mod 360 =? 180); [simpl; now rewrite Hw, Hh|].
  destruct (angle mod 360 =? 90); [simpl; now rewrite Hw, Hh|].
  destruct (angle mod 360 =? 270); [simpl; now rewrite Hw, Hh|].
  now rewrite Hw, Hh.
Qed.

Lemma top_slice_not_empty (cropped_img : image pixel) (rotation : Z) :
  Img.empty cropped_img = false ->
  (Z.of_nat (height (PIL.rotate black rotation cropped_img)) / 10 =? 0) = false ->
  Img.empty (top_slice_of cropped_img rotation) = false.
Proof.
  intros Hsize Hslice.
  pose proof (rotate_not_empty black rotation cropped_img Hsize) as Hrot.
  unfold top_slice_of, PIL.crop, Img.empty in *. simpl.
  apply orb_false_iff in Hrot as [Hw _].
  apply Nat.eqb_neq in Hw. apply Z.eqb_neq in Hslice.
  pose proof (Z.div_pos (Z.of_nat (height (PIL.rotate black rotation cropped_img))) 10
                ltac:(lia) ltac:(lia)) as Hpos.
  apply orb_false_iff. split; apply Nat.eqb_neq; lia.
Qed.

(** The turn of the loop, seen through what the candidate yields. *)
Lemma try_rotation_text (cropped_img : image pixel) (st : search) (rotation : Z) :
  try_rotation cropped_img st rotation =
  (o ← candidate_text cropped_img rotation;
   mret (match o with
         | Some text => accept st rotation text
         | None => st
         end)).
Proof.
  unfold try_rotation, candidate_text.
  fold (top_slice_of cropped_img rotation).
  destruct (_ / 10 =? 0); [reflexivity|].
  unfold cvtColor_GRAY.
  destruct (Img.empty (top_slice_of cropped_img rotation)); [reflexivity|].
  simpl. fold (ocr_slice_of cropped_img rotation).
  destruct (mean_lt _ 100); [|reflexivity].
  destruct (image_to_string (ocr_slice_of cropped_img rotation)); reflexivity.
Qed.

Lemma candidate_text_total (cropped_img : image pixel) (rotation : Z) :
  Img.empty cropped_img = false ->
  exists o, candidate_text cropped_img rotation = Ok o.
Proof.
  intros Hsize. unfold candidate_text.
  destruct (_ / 10 =? 0) eqn:Hslice; [eauto|].
  unfold cvtColor_GRAY.
  rewrite (top_slice_not_empty cropped_img rotation Hsize Hslice). simpl.
  destruct (mean_lt _ 100); [|eauto].
  destruct (image_to_string _); eauto.
Qed.

Lemma try_rotation_total (cropped_img : image pixel) (st : search) (rotation : Z) :
  Img.empty cropped_img = false ->
  exists st', try_rotation cropped_img st rotation = Ok st'.
Proof.
  intros Hsize. rewrite try_rotation_text.
  destruct (candidate_text_total cropped_img rotation Hsize) as [o ->].
  simpl. eauto.
Qed.

Lemma for_each_total (cropped_img : image pixel) (l : list Z) :
  Img.empty cropped_img = false ->
  forall st, exists st', for_each (try_rotation cropped_img) l st = Ok st'.
Proof.
  intros Hsize. induction l as [|r l IH]; intros st; simpl; [eauto|].
  destruct (try_rotation_total cropped_img st r Hsize) as [st1 ->]. simpl. apply IH.
Qed.

Lemma ocr_failure_caught (cropped_img : image pixel) (st : search)
    (rotation : Z) (e : exn) :
  Img.empty cropped_img = false ->
  image_to_string (ocr_slice_of cropped_img rotation) = Raise e ->
  try_rotation cropped_img st rotation = Ok st.
Proof.
  intros Hsize Hocr. rewrite try_rotation_text. unfold candidate_text.
  destruct (_ / 10 =? 0) eqn:Hslice; [reflexivity|].
  unfold cvtColor_GRAY.
  rewrite (top_slice_not_empty cropped_img rotation Hsize Hslice). simpl.
  destruct (mean_lt _ 100); [|reflexivity].
  rewrite Hocr. reflexivity.
Qed.

Lemma len_nonneg (s : string) : 0 <= len s.
Proof. unfold len. lia. Qed.

Lemma has_space_nonempty (text : string) : has_space text = true -> 0 < len text.
Proof. destruct text; [discriminate|]. unfold len. simpl. lia. Qed.

Lemma accept_cases (st : search) (rotation : Z) (text : string) :
  (len (best_text st) < len text /\ has_space text = true /\
   accept st rotation text = Search rotation text true) \/
  (~ (len (best_text st) < len text /\ has_space text = true) /\
   accept st rotation text = st).
Proof.
  unfold accept. destruct (Z.ltb_spec (len (best_text st)) (len text)); simpl.
  - destruct (has_space text); [left; auto | right; split; [intros [_ ?]; congruence | auto]].
  - right. split; [lia | reflexivity].
Qed.

Lemma qualifies_fun (cropped_img : image pixel) (rotation : Z) (t t' : string) :
  qualifies cropped_img rotation t -> qualifies cropped_img rotation t' -> t = t'.
Proof. intros [Ht _] [Ht' _]. congruence. Qed.

Lemma kept_step (cropped_img : image pixel) (done : list Z) (st st' : search) (r : Z) :
  kept cropped_img done st ->
  try_rotation cropped_img st r = Ok st' ->
  kept cropped_img (done ++ [r]) st'.
Proof.
  intros Hkept Hstep. rewrite try_rotation_text in Hstep.
  destruct (candidate_text cropped_img r) as [[text|]|e] eqn:Htext;
    simpl in Hstep; [| |discriminate]; injection Hstep as <-.
  - destruct (accept_cases st r text) as [(Hlen & Hsp & ->)|(Hno & ->)].
    + (* the candidate becomes the best *)
      right. split; [reflexivity|]. exists done, []. simpl.
      split; [reflexivity|]. split; [split; assumption|].
      split; [|intros ? ? []].
      intros r' t' Hr' Hq'.
      destruct Hkept as [[-> Hnone]|(_ & before & after & -> & Hbest & Hbefore & Hafter)].
      * destruct (Hnone r' t' Hr' Hq').
      * apply List.in_app_iff in Hr' as [Hr'|[<-|Hr']].
        -- specialize (Hbefore r' t' Hr' Hq'). lia.
        -- rewrite (qualifies_fun _ _ _ _ Hq' Hbest). exact Hlen.
        -- specialize (Hafter r' t' Hr' Hq'). lia.
    + (* the best is kept *)
      destruct Hkept as [[-> Hnone]|(Hfound & before & after & -> & Hbest & Hbefore & Hafter)].
      * left. split; [reflexivity|].
        intros r' t' Hr' Hq'. apply List.in_app_iff in Hr' as [Hr'|[<-|[]]].
        -- exact (Hnone r' t' Hr' Hq').
        -- destruct Hq' as [Ht' Hsp']. rewrite Htext in Ht'. injection Ht' as <-.
           apply Hno. split; [|assumption].
           simpl. now apply has_space_nonempty.
      * right. split; [assumption|]. exists before, (after ++ [r])%list.
        split; [now rewrite <- List.app_assoc|].
        split; [assumption|]. split; [assumption|].
        intros r' t' Hr' Hq'. apply List.in_app_iff in Hr' as [Hr'|[<-|[]]].
        -- exact (Hafter r' t' Hr' Hq').
        -- destruct Hq' as [Ht' Hsp']. rewrite Htext in Ht'. injection Ht' as <-.
           destruct (Z.le_gt_cases (len text) (len (best_text st))); [assumption|].
           exfalso. apply Hno. split; [lia | assumption].
  - (* skipped, or the recognition raised *)
    destruct Hkept as [[-> Hnone]|(Hfound & before & after & -> & Hbest & Hbefore & Hafter)].
    + left. split; [reflexivity|].
      intros r' t' Hr' Hq'. apply List.in_app_iff in Hr' as [Hr'|[<-|[]]].
      * exact (Hnone r' t' Hr' Hq').
      * destruct Hq' as [Ht' _]. congruence.
    + right. split; [assumption|]. exists before, (after ++ [r])%list.
      split; [now rewrite <- List.app_assoc|].
      split; [assumption|]. split; [assumption|].
      intros r' t' Hr' Hq'. apply List.in_app_iff in Hr' as [Hr'|[<-|[]]].
      * exact (Hafter r' t' Hr' Hq').
      * destruct Hq' as [Ht' _]. congruence.
Qed.

Lemma kept_loop (cropped_img : image pixel) (l : list Z) :
  forall (done : list Z) (st st' : search),
    kept cropped_img done st ->
    for_each (try_rotation cropped_img) l st = Ok st' ->
    kept cropped_img (done ++ l) st'.
Proof.
  induction l as [|r l IH]; intros done st st' Hkept Hrun; simpl in Hrun.
  - injection Hrun as <-. now rewrite List.app_nil_r.
  - destruct (try_rotation cropped_img st r) as [st1|e] eqn:Hstep; [|discriminate].
    simpl in Hrun.
    replace (done ++ r :: l)%list with ((done ++ [r]) ++ l)%list
      by now rewrite <- List.app_assoc.
    eapply IH; [|exact Hrun]. eapply kept_step; eassumption.
Qed.

Lemma detect_orientation_kept (cropped_img : image pixel) (st : search) :
  detect_orientation cropped_img = Ok st -> kept cropped_img rotations st.
Proof.
  intros Hrun. apply (kept_loop cropped_img rotations [] search_start st); [|exact Hrun].
  left. split; [reflexivity | intros ? ? []].
Qed.

End OrientationResolver.

(** C1.  The search tries the rotations 0, 270, 90, 180 in this order; a
    candidate replaces the best exactly when its text is strictly longer
    than the best text and holds a space; so the rotation kept at the end
    qualifies, every qualifying candidate tried before it is strictly
    shorter and every one tried after it is not longer: of two qualifying
    texts of equal length the earlier stays. *)
Theorem orientation_search_order `{Externals} (cropped_img : image pixel) :
  detect_orientation cropped_img =
    (st1 ← try_rotation cropped_img search_start 0;
     st2 ← try_rotation cropped_img st1 270;
     st3 ← try_rotation cropped_img st2 90;
     try_rotation cropped_img st3 180) /\
  (forall st rotation st',
     try_rotation cropped_img st rotation = Ok st' ->
     st' <> st ->
     exists text,
       candidate_text cropped_img rotation = Ok (Some text) /\
       len (best_text st) < len text /\ has_space text = true /\
       st' = Search rotation text true) /\
  (forall st rotation text,
     candidate_text cropped_img rotation = Ok (Some text) ->
     len (best_text st) < len text -> has_space text = true ->
     try_rotation cropped_img st rotation = Ok (Search rotation text true)) /\
  (forall st,
     detect_orientation cropped_img = Ok st ->
     found_orientation st = true ->
     exists before after,
       [0; 270; 90; 180] = (before ++ best_rotation st :: after)%list /\
       qualifies cropped_img (best_rotation st) (best_text st) /\
       (forall r t, In r before -> qualifies cropped_img r t ->
                    len t < len (best_text st)) /\
       (forall r t, In r after -> qualifies cropped_img r t ->
                    len t <= len (best_text st))).
Proof.
  split; [|split; [|split]].
  - unfold detect_orientation, rotations. simpl.
    destruct (try_rotation cropped_img search_start 0) as [st1|]; [simpl|reflexivity].
    destruct (try_rotation cropped_img st1 270) as [st2|]; [simpl|reflexivity].
    destruct (try_rotation cropped_img st2 90) as [st3|]; [simpl|reflexivity].
    destruct (try_rotation cropped_img st3 180); reflexivity.
  - intros st rotation st' Hstep Hchanged. rewrite try_rotation_text in Hstep.
    destruct (candidate_text cropped_img rotation) as [[text|]|e];
      simpl in Hstep; [| |discriminate]; injection Hstep as <-; [|congruence].
    destruct (accept_cases st rotation text) as [(Hlen & Hsp & Heq)|(_ & Heq)];
      [|congruence].
    exists text. auto.
  - intros st rotation text Htext Hlen Hsp. rewrite try_rotation_text, Htext. simpl.
    destruct (accept_cases st rotation text) as [(_ & _ & ->)|(Hno & _)];
      [reflexivity | tauto].
  - intros st Hrun Hfound.
    destruct (detect_orientation_kept cropped_img st Hrun) as [[-> _]|(_ & Hkept)];
      [discriminate | exact Hkept].
Qed.

Lemma orientation_search_order_witness :
  exists before after,
    [0; 270; 90; 180] = (before ++ 0 :: after)%list /\
    qualifies (H := Sample.externals) Sample.photo 0 "a side" /\
    (forall r t, In r before -> qualifies (H := Sample.externals) Sample.photo r t ->
                 len t < len "a side") /\
    (forall r t, In r after -> qualifies (H := Sample.externals) Sample.photo r t ->
                 len t <= len "a side").
Proof.
  apply (proj2 (proj2 (proj2 (orientation_search_order (H := Sample.externals) Sample.photo)))
           (Search 0 "a side" true)).
  - vm_compute. reflexivity.
  - reflexivity.
Defined.

(** The sample photograph: the rotations 0 and 180 read "a side", 270
    reads "a text" of the same length, 90 fails; rotation 0, tried first,
    is kept. *)
Example sample_candidates :
  List.map (candidate_text (H := Sample.externals) Sample.photo) rotations =
  [Ok (Some "a side"); Ok (Some "a text"); Ok None; Ok (Some "a side")].
Proof. vm_compute. reflexivity. Qed.

Example sample_orientation :
  detect_orientation (H := Sample.externals) Sample.photo = Ok (Search 0 "a side" true).
Proof. vm_compute. reflexivity. Qed.

(** C4.  When no candidate qualifies the search ends where it started,
    with rotation 0, which leaves the region as it is.  A recognition that
    raises leaves the best candidate unchanged and the loop goes on with
    the remaining rotations, and the search of a region that is not empty
    never raises. *)
Theorem orientation_fallback `{Externals} (cropped_img : image pixel) :
  (forall st,
     detect_orientation cropped_img = Ok st ->
     (forall r t, In r [0; 270; 90; 180] -> ~ qualifies cropped_img r t) ->
     best_rotation st = 0 /\ found_orientation st = false /\
     PIL.rotate white (best_rotation st) cropped_img = cropped_img) /\
  (forall st rotation e rest,
     Img.empty cropped_img = false ->
     image_to_string (ocr_slice_of cropped_img rotation) = Raise e ->
     try_rotation cropped_img st rotation = Ok st /\
     for_each (try_rotation cropped_img) (rotation :: rest) st =
     for_each (try_rotation cropped_img) rest st) /\
  (Img.empty cropped_img = false ->
   exists st, detect_orientation cropped_img = Ok st).
Proof.
  split; [|split].
  - intros st Hrun Hnone.
    destruct (detect_orientation_kept cropped_img st Hrun)
      as [[-> _]|(_ & before & after & Hsplit & Hbest & _)].
    + repeat split; reflexivity.
    + exfalso. apply (Hnone (best_rotation st) (best_text st)); [|exact Hbest].
      change [0; 270; 90; 180] with rotations. rewrite Hsplit.
      apply List.in_app_iff. right. left. reflexivity.
  - intros st rotation e rest Hsize Hocr.
    pose proof (ocr_failure_caught cropped_img st rotation e Hsize Hocr) as Hstep.
    split; [exact Hstep|]. simpl. rewrite Hstep. reflexivity.
  - intros Hsize. apply for_each_total. exact Hsize.
Qed.

Lemma orientation_fallback_witness :
  (best_rotation search_start = 0 /\ found_orientation search_start = false /\
   PIL.rotate white (best_rotation search_start) Sample.blank_page = Sample.blank_page) /\
  (try_rotation (H := Sample.externals) Sample.photo (Search 0 "a side" true) 90 =
     Ok (Search 0 "a side" true) /\
   for_each (try_rotation (H := Sample.externals) Sample.photo) [90; 180]
     (Search 0 "a side" true) =
   for_each (try_rotation (H := Sample.externals) Sample.photo) [180]
     (Search 0 "a side" true)) /\
  (exists st, detect_orientation (H := Sample.externals) Sample.photo = Ok st).
Proof.
  pose proof (orientation_fallback (H := Sample.externals) Sample.blank_page)
    as (Hnone & _ & _).
  pose proof (orientation_fallback (H := Sample.externals) Sample.photo)
    as (_ & Hraise & Htotal).
  split; [|split].
  - apply Hnone; [vm_compute; reflexivity|].
    intros r t Hr [Ht _].
    destruct Hr as [<-|[<-|[<-|[<-|[]]]]]; vm_compute in Ht; discriminate.
  - apply (Hraise _ 90 TesseractError [180]); vm_compute; reflexivity.
  - apply Htotal. reflexivity.
Defined.

(** ** Output files *)

Lemma string_length_app (a b : string) :
  String.length (a ++ b) = (String.length a + String.length b)%nat.
Proof.
  induction a as [|c a IH]; [reflexivity|].
  rewrite string_app_cons. simpl. now rewrite IH.
Qed.

Lemma string_app_inv_tail (c : string) : forall a b : string,
  a ++ c = b ++ c -> a = b.
Proof.
  induction a as [|x a IH]; intros [|y b] Heq.
  - reflexivity.
  - apply (f_equal String.length) in Heq.
    rewrite string_app_nil, string_app_cons in Heq. simpl in Heq.
    rewrite string_length_app in Heq. lia.
  - apply (f_equal String.length) in Heq.
    rewrite string_app_nil, string_app_cons in Heq. simpl in Heq.
    rewrite string_length_app in Heq. lia.
  - rewrite !string_app_cons in Heq. injection Heq as -> Heq.
    f_equal. now apply IH.
Qed.

Lemma str_inj (a b : Z) : str a = str b -> a = b.
Proof.
  intros Heq. apply to_int_inj.
  assert (Hnorm : forall n, Z.to_int n <> Decimal.Pos Decimal.Nil /\
                            Z.to_int n <> Decimal.Neg Decimal.Nil).
  { intros [|p|p]; simpl; split; try discriminate;
      intros [= Hnil]; now apply Unsigned.to_uint_nonnil in Hnil. }
  unfold str in Heq. apply (f_equal NilZero.int_of_string) in Heq.
  destruct (Hnorm a), (Hnorm b).
  rewrite !NilZero.isi in Heq by assumption. congruence.
Qed.

Lemma output_name_inj : Injective output_name_of.
Proof.
  intros a b Heq. unfold output_name_of in Heq.
  apply String.app_inj in Heq. apply string_app_inv_tail in Heq.
  now apply str_inj.
Qed.

Lemma count_from_S (k : Z) (n : nat) :
  count_from k (S n) = (k + 1) :: count_from (k + 1) n.
Proof.
  unfold count_from. simpl. f_equal.
  rewrite <- List.seq_shift, List.map_map.
  apply List.map_ext. intros i. lia.
Qed.

Lemma count_from_app (k : Z) (n m : nat) :
  count_from k (n + m) = (count_from k n ++ count_from (k + Z.of_nat n) m)%list.
Proof.
  revert k. induction n as [|n IH]; intros k.
  - simpl. f_equal. lia.
  - change (S n + m)%nat with (S (n + m)). rewrite !count_from_S, IH. simpl.
    do 3 f_equal. lia.
Qed.

Lemma count_from_NoDup (k : Z) (n : nat) : List.NoDup (count_from k n).
Proof.
  unfold count_from. apply Injective_map_NoDup; [|apply List.seq_NoDup].
  intros i j. lia.
Qed.

Section Main.
Context `{Externals}.

Lemma find_sub_images_boxes (fs : gmap string (image pixel)) (image_file : string) :
  find_sub_images fs image_file <> [] ->
  is_Some (fs !! image_file) /\
  List.Forall detector_box (find_sub_images fs image_file).
Proof.
  intros Hsome. split.
  - destruct (find_sub_images fs image_file) as [|box boxes] eqn:Hboxes; [congruence|].
    assert (Hin : In box (find_sub_images fs image_file)) by (rewrite Hboxes; now left).
    apply find_sub_images_inv in Hin as (img & _ & _ & Hfile & _). eauto.
  - apply List.Forall_forall. intros box Hin.
    apply find_sub_images_inv in Hin as (_ & _ & cnt & _ & _ & _ & _ & Hlarge & ->).
    exists cnt. auto.
Qed.

Lemma process_sub_image_written (w w' : world) (input_image box output_name : string) :
  process_sub_image w input_image box output_name = Ok w' ->
  exists final_image, w' = written w output_name final_image.
Proof.
  unfold process_sub_image. intros Hrun.
  destruct (parse_box box) as [[[[bw bh] x] y]|e]; [|discriminate]. simpl in Hrun.
  destruct (Image_open w input_image) as [img|e]; [|discriminate]. simpl in Hrun.
  destruct (detect_orientation _) as [st|e]; [|discriminate]. simpl in Hrun.
  apply Image_save_Ok in Hrun as (-> & _). eauto.
Qed.

Lemma save_box_written (image_file box : string) (st st' : world * Z) :
  save_box image_file st box = Ok st' ->
  exists final_image,
    st' = (written (fst st) (output_name_of (snd st + 1)) final_image, snd st + 1).
Proof.
  unfold save_box. cbv zeta.
  change ("final_image_" ++ str (snd st + 1) ++ ".jpg") with (output_name_of (snd st + 1)).
  destruct (process_sub_image _ _ _ _) as [w1|e] eqn:Hrun; [|discriminate].
  simpl. intros [= <-].
  apply process_sub_image_written in Hrun as [final_image ->]. eauto.
Qed.

(** What a loop over boxes that ends without an exception has saved. *)
Lemma save_boxes_ok (image_file : string) (boxes : list string) :
  forall st st' : world * Z,
    for_each (save_box image_file) boxes st = Ok st' ->
    snd st' = snd st + Z.of_nat (List.length boxes) /\
    saved (fst st') =
      (saved (fst st) ++
       List.map output_name_of (count_from (snd st) (List.length boxes)))%list /\
    (forall name, is_Some (files (fst st) !! name) -> is_Some (files (fst st') !! name)) /\
    List.Forall (fun name => is_Some (files (fst st') !! name))
      (List.map output_name_of (count_from (snd st) (List.length boxes))).
Proof.
  induction boxes as [|box boxes IH]; intros st st' Hrun; simpl in Hrun.
  - injection Hrun as <-. simpl. rewrite Z.add_0_r, List.app_nil_r. auto.
  - destruct (save_box image_file st box) as [st1|e] eqn:Hstep; [|discriminate].
    simpl in Hrun. destruct (save_box_written _ _ _ _ Hstep) as [final_image ->].
    destruct (IH _ _ Hrun) as (Hk & Hsaved & Hfiles & Hnew).
    cbn [fst snd] in Hk, Hsaved, Hfiles, Hnew.
    cbn [List.length]. rewrite count_from_S. cbn [List.map].
    split; [lia|].
    split; [rewrite Hsaved; simpl; now rewrite <- List.app_assoc|].
    split.
    + intros name Hname. apply Hfiles. simpl. apply lookup_insert_is_Some'. now right.
    + constructor; [|exact Hnew].
      apply Hfiles. simpl. apply lookup_insert_is_Some'. now left.
Qed.

Lemma pages_ok (image_files : list string) :
  forall st st' : world * Z,
    for_each process_page image_files st = Ok st' ->
    let n := List.length (detected st image_files) in
    snd st' = snd st + Z.of_nat n /\
    saved (fst st') =
      (saved (fst st) ++ List.map output_name_of (count_from (snd st) n))%list /\
    (forall name, is_Some (files (fst st) !! name) -> is_Some (files (fst st') !! name)) /\
    List.Forall (fun name => is_Some (files (fst st') !! name))
      (List.map output_name_of (count_from (snd st) n)).
Proof.
  induction image_files as [|image_file rest IH]; intros st st' Hrun n; simpl in Hrun.
  - injection Hrun as <-. subst n. simpl. rewrite Z.add_0_r, List.app_nil_r. auto.
  - destruct (process_page st image_file) as [st1|e] eqn:Hpage; [|discriminate].
    simpl in Hrun. subst n. cbn [detected]. rewrite Hpage.
    unfold process_page in Hpage.
    destruct (save_boxes_ok _ _ _ _ Hpage) as (Hk1 & Hsaved1 & Hfiles1 & Hnew1).
    destruct (IH _ _ Hrun) as (Hk & Hsaved & Hfiles & Hnew).
    rewrite List.length_app, count_from_app, List.map_app. rewrite <- Hk1.
    split; [lia|].
    split; [rewrite Hsaved, Hsaved1; now rewrite <- List.app_assoc|].
    split; [auto|].
    apply List.Forall_app. split; [|exact Hnew].
    eapply List.Forall_impl; [|exact Hnew1]. simpl. auto.
Qed.

End Main.

(** C3, as the code has it.  A run of [main] that returns has saved one
    file for each detected box, and the files are named final_image_1.jpg,
    final_image_2.jpg, ... without a gap and without a restart from page
    to page: a page processed when [k] files have been saved names its
    files from [k+1] on. *)
Theorem output_files_numbered `{Externals} :
  (forall (w w' : world) (image_files : list string) (total_images_saved : Z),
     main w image_files = Ok (w', total_images_saved) ->
     let boxes := detected (w, 0) image_files in
     let names :=
       List.map (fun i => "final_image_" ++ str (Z.of_nat i) ++ ".jpg")
         (seq 1 (List.length boxes)) in
     total_images_saved = Z.of_nat (List.length boxes) /\
     saved w' = (saved w ++ names)%list /\
     List.NoDup names /\
     List.Forall (fun name => is_Some (files w' !! name)) names) /\
  (forall (w w' : world) (k k' : Z) (image_file : string),
     process_page (w, k) image_file = Ok (w', k') ->
     let boxes := find_sub_images (files w) image_file in
     k' = k + Z.of_nat (List.length boxes) /\
     saved w' =
       (saved w ++
        List.map (fun i => ("final_image_" ++ str (k + Z.of_nat i) ++ ".jpg")%string)
          (seq 1 (List.length boxes)))%list).
Proof.
  assert (Hnames : forall k n,
            List.map output_name_of (count_from k n) =
            List.map (fun i => "final_image_" ++ str (k + Z.of_nat i) ++ ".jpg") (seq 1 n)).
  { intros k n. unfold count_from. rewrite List.map_map. reflexivity. }
  split.
  - intros w w' image_files total Hrun boxes names.
    destruct (pages_ok image_files (w, 0) (w', total) Hrun) as (Hk & Hsaved & _ & Hnew).
    cbn [fst snd] in Hk, Hsaved, Hnew. fold boxes in Hk, Hsaved, Hnew.
    assert (Heq : List.map output_name_of (count_from 0 (List.length boxes)) = names).
    { rewrite Hnames. reflexivity. }
    rewrite Heq in *.
    split; [lia|]. split; [exact Hsaved|]. split; [|exact Hnew].
    rewrite <- Heq. apply Injective_map_NoDup; [apply output_name_inj|].
    apply count_from_NoDup.
  - intros w w' k k' image_file Hrun boxes. unfold process_page in Hrun.
    destruct (save_boxes_ok _ _ _ _ Hrun) as (Hk & Hsaved & _).
    cbn [fst snd] in Hk, Hsaved. fold boxes in Hk, Hsaved.
    split; [exact Hk|]. rewrite Hsaved, Hnames. reflexivity.
Qed.

Lemma output_files_numbered_witness :
  exists w',
    main (H := Sample.externals) Sample.start ["page.jpg"; "blank.jpg"; "page.jpg"] =
      Ok (w', 2) /\
    saved w' = ["final_image_1.jpg"; "final_image_2.jpg"] /\
    List.Forall (fun name => is_Some (files w' !! name))
      ["final_image_1.jpg"; "final_image_2.jpg"].
Proof.
  destruct (main (H := Sample.externals) Sample.start ["page.jpg"; "blank.jpg"; "page.jpg"])
    as [[w' n]|e] eqn:Hrun; [|vm_compute in Hrun; discriminate].
  assert (Hn : n = 2).
  { change n with (snd (w', n)).
    change (w', n) with (match Ok (w', n) with Ok st => st | Raise _ => (w', n) end).
    rewrite <- Hrun. vm_compute. reflexivity. }
  subst n. exists w'. split; [reflexivity|].
  destruct (proj1 (output_files_numbered (H := Sample.externals)) _ _ _ _ Hrun)
    as (_ & Hsaved & _ & Hnew).
  assert (Hboxes : detected (H := Sample.externals) (Sample.start, 0)
                     ["page.jpg"; "blank.jpg"; "page.jpg"] =
                   ["100x90+10+5"; "100x90+10+5"]) by (vm_compute; reflexivity).
  rewrite Hboxes in Hsaved, Hnew. split; [exact Hsaved | exact Hnew].
Defined.

(** C3 as stated fails: a detected box need not get its file.  Pillow
    opens the page again for every box, and nothing in [main] catches what
    it raises: on a page that OpenCV reads and Pillow cannot identify, a
    box is detected, the run ends on the exception and no file is saved. *)
Lemma detected_box_without_file :
  find_sub_images (H := Sample.no_hdr) (files Sample.hdr_start) "page.hdr" =
    ["100x90+10+5"] /\
  main (H := Sample.no_hdr) Sample.hdr_start ["page.hdr"] = Raise OSError /\
  saved (fst (fst (main_run (H := Sample.no_hdr) Sample.hdr_start ["page.hdr"]))) = [] /\
  ~ (forall (E : Externals) (w : world) (image_files : list string),
       exists w',
         main w image_files =
           Ok (w', Z.of_nat (List.length (detected (w, 0) image_files))) /\
         saved w' =
           (saved w ++
            List.map (fun i => ("final_image_" ++ str (Z.of_nat i) ++ ".jpg")%string)
              (seq 1 (List.length (detected (w, 0) image_files))))%list).
Proof.
  assert (Hraise : main (H := Sample.no_hdr) Sample.hdr_start ["page.hdr"] = Raise OSError)
    by (vm_compute; reflexivity).
  split; [vm_compute; reflexivity|]. split; [exact Hraise|].
  split; [vm_compute; reflexivity|].
  intros Hclaim.
  destruct (Hclaim Sample.no_hdr Sample.hdr_start ["page.hdr"]) as (w' & Hrun & _).
  rewrite Hraise in Hrun. discriminate.
Qed.

(** A run over the sample page twice, with an unreadable and a blank page
    in between: two boxes, two files. *)
Example sample_run :
  match main (H := Sample.externals) Sample.start
          ["page.jpg"; "missing.jpg"; "blank.jpg"; "page.jpg"] with
  | Ok (w, total_images_saved) => Some (saved w, total_images_saved)
  | Raise _ => None
  end = Some (["final_image_1.jpg"; "final_image_2.jpg"], 2).
Proof. vm_compute. reflexivity. Qed.

(** C7.  A page none of whose contours is above the area threshold gives
    the empty sequence; so does a page that cannot be read and a contour
    extraction that raises; and a page with the empty sequence leaves the
    run as it was, which goes on with the next page. *)
Theorem empty_detection `{Externals}
    (fs : gmap string (image pixel)) (image_file : string) :
  (forall img contours,
     fs !! image_file = Some img ->
     Img.empty img = false ->
     findContours (page_mask img) = Ok contours ->
     List.Forall (fun cnt => (cv2.contourArea cnt <= 5000)%Q) contours ->
     find_sub_images fs image_file = []) /\
  (forall e, find_sub_images_try fs image_file = Raise e ->
             find_sub_images fs image_file = []) /\
  (fs !! image_file = None -> find_sub_images_try fs image_file = Raise CvError) /\
  (forall img e,
     fs !! image_file = Some img ->
     findContours (page_mask img) = Raise e ->
     exists e', find_sub_images_try fs image_file = Raise e') /\
  (forall st rest,
     files (fst st) = fs ->
     find_sub_images fs image_file = [] ->
     process_page st image_file = Ok st /\
     for_each process_page (image_file :: rest) st = for_each process_page rest st).
Proof.
  split; [|split; [|split; [|split]]].
  - intros img contours Hfile Hsize Hfound Hsmall.
    rewrite (find_sub_images_found fs image_file img contours Hfile Hsize Hfound).
    clear Hfound.
    induction Hsmall as [|cnt contours Hcnt _ IH]; [reflexivity|].
    simpl. apply large_false in Hcnt. rewrite Hcnt. exact IH.
  - intros e Hraise. unfold find_sub_images. now rewrite Hraise.
  - intros Hfile. unfold find_sub_images_try. now rewrite Hfile.
  - intros img e Hfile Hraise. unfold find_sub_images_try, cvtColor_GRAY.
    rewrite Hfile. destruct (Img.empty img); [eauto|].
    simpl. fold (page_mask img). rewrite Hraise. eauto.
  - intros st rest Hfs Hnone.
    assert (Hpage : process_page st image_file = Ok st).
    { unfold process_page. rewrite Hfs, Hnone. reflexivity. }
    split; [exact Hpage|]. simpl. rewrite Hpage. reflexivity.
Qed.

Lemma empty_detection_witness :
  find_sub_images (H := Sample.externals) (files Sample.start) "blank.jpg" = [] /\
  find_sub_images (H := Sample.externals) (files Sample.start) "missing.jpg" = [] /\
  for_each (process_page (H := Sample.externals)) ["missing.jpg"; "page.jpg"]
    (Sample.start, 0) =
  for_each (process_page (H := Sample.externals)) ["page.jpg"] (Sample.start, 0).
Proof.
  pose proof (empty_detection (H := Sample.externals) (files Sample.start) "blank.jpg")
    as (Hsmall & _).
  pose proof (empty_detection (H := Sample.externals) (files Sample.start) "missing.jpg")
    as (_ & Hcaught & Hunread & _ & Hnext).
  split; [|split].
  - apply (Hsmall Sample.blank_page []); try reflexivity. constructor.
  - apply (Hcaught CvError). apply Hunread. reflexivity.
  - apply (Hnext (Sample.start, 0) ["page.jpg"]); [reflexivity|].
    apply (Hcaught CvError). apply Hunread. reflexivity.
Defined.

(** * Further properties of the code *)

(** ** Images with rows that agree with their size *)

Lemma nth_map_seq {A} (f : nat -> A) (d : A) (n i : nat) :
  (i < n)%nat -> nth i (List.map f (seq 0 n)) d = f i.
Proof.
  intros Hi. rewrite (List.nth_indep _ d (f 0%nat)) by now rewrite List.length_map, List.length_seq.
  rewrite (List.map_nth f (seq 0 n) 0%nat i). now rewrite List.seq_nth.
Qed.

Lemma getpixel_tabulate {A} (fill : A) (w h : nat) (f : nat -> nat -> A) (x y : nat) :
  (x < w)%nat -> (y < h)%nat -> getpixel fill (tabulate w h f) x y = f x y.
Proof.
  intros Hx Hy. unfold getpixel, tabulate. simpl.
  rewrite (nth_map_seq (fun y => List.map (fun x => f x y) (seq 0 w)) [] h y Hy).
  apply (nth_map_seq (fun x => f x y) fill w x Hx).
Qed.

Lemma tabulate_well_formed {A} (w h : nat) (f : nat -> nat -> A) :
  well_formed (tabulate w h f).
Proof.
  unfold well_formed, tabulate. simpl. split.
  - now rewrite List.length_map, List.length_seq.
  - apply List.Forall_forall. intros row Hrow.
    apply List.in_map_iff in Hrow as (y & <- & _).
    now rewrite List.length_map, List.length_seq.
Qed.

Lemma tabulate_ext {A} (w h : nat) (f g : nat -> nat -> A) :
  (forall x y, (x < w)%nat -> (y < h)%nat -> f x y = g x y) ->
  tabulate w h f = tabulate w h g.
Proof.
  intros Hfg. unfold tabulate. f_equal.
  apply List.map_ext_in. intros y Hy. apply List.in_seq in Hy.
  apply List.map_ext_in. intros x Hx. apply List.in_seq in Hx.
  apply Hfg; lia.
Qed.

Lemma point_tabulate {A B} (k : A -> B) (w h : nat) (f : nat -> nat -> A) :
  point k (tabulate w h f) = tabulate w h (fun x y => k (f x y)).
Proof.
  unfold point, tabulate. simpl. f_equal.
  rewrite List.map_map. apply List.map_ext. intros y. apply List.map_map.
Qed.

Lemma point_well_formed {A B} (k : A -> B) (im : image A) :
  well_formed im -> well_formed (point k im).
Proof.
  intros [Hh Hw]. unfold well_formed, point. simpl. split.
  - now rewrite List.length_map.
  - rewrite List.Forall_map. eapply List.Forall_impl; [|exact Hw].
    simpl. intros row Hrow. now rewrite List.length_map.
Qed.

Lemma well_formed_row {A} (im : image A) (y : nat) :
  well_formed im -> (y < height im)%nat ->
  List.length (nth y (rows im) []) = width im.
Proof.
  intros [Hh Hw] Hy. rewrite List.Forall_forall in Hw. apply Hw.
  apply List.nth_In. lia.
Qed.

Lemma getpixel_point {A B} (k : A -> B) (fa : A) (fb : B) (im : image A) (x y : nat) :
  well_formed im -> (x < width im)%nat -> (y < height im)%nat ->
  getpixel fb (point k im) x y = k (getpixel fa im x y).
Proof.
  intros Hwf Hx Hy. unfold getpixel, point. simpl.
  pose proof (well_formed_row im y Hwf Hy) as Hrow.
  destruct Hwf as [Hh _].
  rewrite (List.nth_indep _ [] (List.map k [])) by (rewrite List.length_map; lia).
  rewrite (List.map_nth (List.map k) (rows im) [] y).
  rewrite (List.nth_indep _ fb (k fa)) by (rewrite List.length_map; lia).
  apply List.map_nth.
Qed.

(** A well-formed image is the table of its own pixels. *)
Lemma tabulate_getpixel {A} (fill : A) (im : image A) :
  well_formed im ->
  tabulate (width im) (height im) (getpixel fill im) = im.
Proof.
  destruct im as [w h rs]. unfold well_formed, tabulate, getpixel. simpl.
  intros [Hh Hw]. f_equal. subst h.
  apply (List.nth_ext _ _ [] []).
  - now rewrite List.length_map, List.length_seq.
  - intros y Hy. rewrite List.length_map, List.length_seq in Hy.
    rewrite (nth_map_seq (fun y => List.map (fun x => nth x (nth y rs []) fill) (seq 0 w))
               [] _ y Hy).
    assert (Hrow : List.length (nth y rs []) = w).
    { rewrite List.Forall_forall in Hw. apply Hw. now apply List.nth_In. }
    apply (List.nth_ext _ _ fill fill).
    + now rewrite List.length_map, List.length_seq.
    + intros x Hx. rewrite List.length_map, List.length_seq in Hx.
      apply (nth_map_seq (fun x => nth x (nth y rs []) fill) fill w x Hx).
Qed.

(** ** The bounding box of [getbbox] *)

Lemma scan_row_fold (y : Z) (row : list Z) : forall (x : Z) acc,
  PIL.scan_row y x row acc =
  fold_left (fun a p => PIL.extend a (fst p) (snd p)) (row_points y x row) acc.
Proof.
  induction row as [|v row IH]; intros x acc; simpl; [reflexivity|].
  rewrite IH, List.fold_left_app. destruct (v =? 0); reflexivity.
Qed.

Lemma scan_rows_fold (rs : list (list Z)) : forall (y : Z) acc,
  PIL.scan_rows y rs acc =
  fold_left (fun a p => PIL.extend a (fst p) (snd p)) (rows_points y rs) acc.
Proof.
  induction rs as [|row rs IH]; intros y acc; simpl; [reflexivity|].
  now rewrite IH, scan_row_fold, List.fold_left_app.
Qed.

Lemma in_row_points (y : Z) (row : list Z) : forall (x : Z) (p : Z * Z),
  In p (row_points y x row) <->
  exists i, (i < List.length row)%nat /\ nth i row 0 <> 0 /\ p = (x + Z.of_nat i, y).
Proof.
  induction row as [|v row IH]; intros x p; simpl.
  - split; [intros [] | intros (i & Hi & _); lia].
  - rewrite List.in_app_iff, IH. split.
    + intros [Hhere|(i & Hi & Hv & ->)].
      * destruct (Z.eqb_spec v 0) as [|Hv]; [destruct Hhere|].
        destruct Hhere as [<-|[]]. exists 0%nat.
        repeat split; [lia | exact Hv | f_equal; lia].
      * exists (S i). repeat split; [lia | exact Hv | f_equal; lia].
    + intros ([|i] & Hi & Hv & ->).
      * left. destruct (Z.eqb_spec v 0) as [|_]; [contradiction|].
        left. f_equal. lia.
      * right. exists i. repeat split; [lia | exact Hv | f_equal; lia].
Qed.

Lemma in_rows_points (rs : list (list Z)) : forall (y : Z) (p : Z * Z),
  In p (rows_points y rs) <->
  exists i j, (j < List.length rs)%nat /\ (i < List.length (nth j rs []))%nat /\
              nth i (nth j rs []) 0 <> 0 /\ p = (Z.of_nat i, y + Z.of_nat j).
Proof.
  induction rs as [|row rs IH]; intros y p; simpl.
  - split; [intros [] | intros (i & j & Hj & _); lia].
  - rewrite List.in_app_iff, in_row_points, IH. split.
    + intros [(i & Hi & Hv & ->)|(i & j & Hj & Hi & Hv & ->)].
      * exists i, 0%nat. repeat split; [lia | exact Hi | exact Hv | f_equal; lia].
      * exists i, (S j). repeat split; [lia | exact Hi | exact Hv | f_equal; lia].
    + intros (i & [|j] & Hj & Hi & Hv & ->).
      * left. exists i. repeat split; [exact Hi | exact Hv | f_equal; lia].
      * right. exists i, j. repeat split; [lia | exact Hi | exact Hv | f_equal; lia].
Qed.

Lemma tight_box_one (x y : Z) : tight_box [(x, y)] (x, y, x + 1, y + 1).
Proof.
  unfold tight_box. split; [repeat constructor; simpl; lia|].
  repeat split; exists (x, y); simpl; split; auto; lia.
Qed.

Lemma tight_box_extend (S : list (Z * Z)) (l u r b x y : Z) :
  tight_box S (l, u, r, b) ->
  tight_box (S ++ [(x, y)])
    (Z.min l x, Z.min u y, Z.max r (x + 1), Z.max b (y + 1)).
Proof.
  unfold tight_box.
  intros (Hall & (pl & Hpl & Hl) & (pr & Hpr & Hr) & (pu & Hpu & Hu) & (pb & Hpb & Hb)).
  split.
  - apply List.Forall_app. split.
    + eapply List.Forall_impl; [|exact Hall]. simpl. intros p Hp. lia.
    + repeat constructor; simpl; lia.
  - repeat split.
    + destruct (Z.le_gt_cases l x).
      * exists pl. split; [apply List.in_app_iff; now left | lia].
      * exists (x, y). split; [apply List.in_app_iff; right; now left | simpl; lia].
    + destruct (Z.le_gt_cases (x + 1) r).
      * exists pr. split; [apply List.in_app_iff; now left | lia].
      * exists (x, y). split; [apply List.in_app_iff; right; now left | simpl; lia].
    + destruct (Z.le_gt_cases u y).
      * exists pu. split; [apply List.in_app_iff; now left | lia].
      * exists (x, y). split; [apply List.in_app_iff; right; now left | simpl; lia].
    + destruct (Z.le_gt_cases (y + 1) b).
      * exists pb. split; [apply List.in_app_iff; now left | lia].
      * exists (x, y). split; [apply List.in_app_iff; right; now left | simpl; lia].
Qed.

Lemma fold_extend_tight (pts : list (Z * Z)) : forall (S : list (Z * Z)) box,
  tight_box S box ->
  exists box',
    fold_left (fun a p => PIL.extend a (fst p) (snd p)) pts (Some box) = Some box' /\
    tight_box (S ++ pts) box'.
Proof.
  induction pts as [|[x y] pts IH]; intros S box Htight.
  - exists box. rewrite List.app_nil_r. auto.
  - destruct box as [[[l u] r] b]. simpl.
    destruct (IH (S ++ [(x, y)])%list _ (tight_box_extend S l u r b x y Htight))
      as (box' & Hfold & Htight').
    exists box'. split; [exact Hfold|]. now rewrite <- List.app_assoc in Htight'.
Qed.

Lemma getbbox_tight (im : image Z) (box : Z * Z * Z * Z) :
  PIL.getbbox im = Some box -> tight_box (rows_points 0 (rows im)) box.
Proof.
  unfold PIL.getbbox. rewrite scan_rows_fold.
  destruct (rows_points 0 (rows im)) as [|[x y] pts]; [discriminate|].
  simpl. intros Hfold.
  destruct (fold_extend_tight pts [(x, y)] _ (tight_box_one x y)) as (box' & Hfold' & Htight).
  rewrite Hfold in Hfold'. injection Hfold' as <-. exact Htight.
Qed.

Lemma tight_box_unique (S : list (Z * Z)) (box box' : Z * Z * Z * Z) :
  tight_box S box -> tight_box S box' -> box = box'.
Proof.
  destruct box as [[[l u] r] b], box' as [[[l' u'] r'] b']. unfold tight_box.
  intros (Hall & (pl & Hpl & Hl) & (pr & Hpr & Hr) & (pu & Hpu & Hu) & (pb & Hpb & Hb))
         (Hall' & (pl' & Hpl' & Hl') & (pr' & Hpr' & Hr') & (pu' & Hpu' & Hu')
          & (pb' & Hpb' & Hb')).
  rewrite List.Forall_forall in Hall, Hall'.
  pose proof (Hall _ Hpl'). pose proof (Hall _ Hpr').
  pose proof (Hall _ Hpu'). pose proof (Hall _ Hpb').
  pose proof (Hall' _ Hpl). pose proof (Hall' _ Hpr).
  pose proof (Hall' _ Hpu). pose proof (Hall' _ Hpb).
  repeat f_equal; lia.
Qed.

Lemma tight_box_getbbox (im : image Z) (box : Z * Z * Z * Z) :
  tight_box (rows_points 0 (rows im)) box -> PIL.getbbox im = Some box.
Proof.
  intros Htight. destruct (PIL.getbbox im) as [box'|] eqn:Hbox.
  - f_equal. symmetry.
    exact (tight_box_unique _ _ _ Htight (getbbox_tight im box' Hbox)).
  - apply getbbox_None in Hbox. exfalso.
    destruct box as [[[l u] r] b]. destruct Htight as (_ & (p & Hp & _) & _).
    apply in_rows_points in Hp as (i & j & Hj & Hi & Hv & _).
    apply Hv. rewrite List.Forall_forall in Hbox. apply Hbox.
    unfold pixels. apply List.in_concat. exists (nth j (rows im) []).
    split; apply List.nth_In; assumption.
Qed.

(** The non-zero points of the inverted gray image are the pixels of the
    input whose gray level is not 255. *)
Lemma inverted_points (im : image pixel) (p : Z * Z) :
  well_formed im ->
  In p (rows_points 0 (rows (PIL.invert (PIL.convert_L im)))) <->
  exists x y, p = (Z.of_nat x, Z.of_nat y) /\
              (x < width im)%nat /\ (y < height im)%nat /\ gray_at im x y <> 255.
Proof.
  intros Hwf. rewrite inverted_gray, in_rows_points.
  pose proof (point_well_formed (fun p => 255 - PIL.rgb2l p) im Hwf) as Hwf'.
  assert (Hh' : List.length (rows (point (fun p => 255 - PIL.rgb2l p) im)) = height im)
    by apply Hwf'.
  assert (Hw' : List.Forall (fun row => List.length row = width im)
                  (rows (point (fun p => 255 - PIL.rgb2l p) im)))
    by apply Hwf'.
  clear Hwf'. split.
  - intros (i & j & Hj & Hi & Hv & ->). rewrite Hh' in Hj.
    assert (Hi' : (i < width im)%nat).
    { rewrite List.Forall_forall in Hw'.
      rewrite <- (Hw' (nth j (rows (point (fun p => 255 - PIL.rgb2l p) im)) []));
        [exact Hi|].
      apply List.nth_In. now rewrite Hh'. }
    exists i, j. repeat split; [exact Hi' | exact Hj|].
    pose proof (getpixel_point (fun p => 255 - PIL.rgb2l p) black 0 im i j Hwf Hi' Hj) as Hpx.
    unfold getpixel in Hpx at 1. rewrite Hpx in Hv. unfold gray_at. lia.
  - intros (x & y & -> & Hx & Hy & Hgray).
    exists x, y. rewrite Hh'.
    assert (Hrow : List.length (nth y (rows (point (fun p => 255 - PIL.rgb2l p) im)) [])
                   = width im).
    { rewrite List.Forall_forall in Hw'. apply Hw'. apply List.nth_In. now rewrite Hh'. }
    repeat split; [exact Hy | now rewrite Hrow |].
    pose proof (getpixel_point (fun p => 255 - PIL.rgb2l p) black 0 im x y Hwf Hx Hy) as Hpx.
    unfold getpixel in Hpx at 1. rewrite Hpx. unfold gray_at in Hgray. lia.
Qed.

(** ** Border Cropper: the window it keeps *)

Lemma rgb2l_l2rgb (v : Z) : PIL.rgb2l (PIL.l2rgb v) = v.
Proof.
  unfold PIL.rgb2l, PIL.l2rgb. simpl. rewrite Z.shiftr_div_pow2 by lia.
  replace (v * 19595 + v * 38470 + v * 7471 + 32768) with (v * 2 ^ 16 + 32768) by lia.
  rewrite Z.div_add_l by lia. rewrite (Z.div_small 32768) by lia. lia.
Qed.

Lemma content_box (im : image pixel) (l u r b : Z) :
  well_formed im ->
  PIL.getbbox (PIL.invert (PIL.convert_L im)) = Some (l, u, r, b) ->
  (0 <= l < r /\ r <= Z.of_nat (width im)) /\
  (0 <= u < b /\ b <= Z.of_nat (height im)) /\
  (forall x y, (x < width im)%nat -> (y < height im)%nat -> gray_at im x y <> 255 ->
               l <= Z.of_nat x < r /\ u <= Z.of_nat y < b) /\
  (exists y, (y < height im)%nat /\ gray_at im (Z.to_nat l) y <> 255) /\
  (exists y, (y < height im)%nat /\ gray_at im (Z.to_nat (r - 1)) y <> 255) /\
  (exists x, (x < width im)%nat /\ gray_at im x (Z.to_nat u) <> 255) /\
  (exists x, (x < width im)%nat /\ gray_at im x (Z.to_nat (b - 1)) <> 255).
Proof.
  intros Hwf Hbox. apply getbbox_tight in Hbox.
  destruct Hbox as (Hall & (pl & Hpl & Hl) & (pr & Hpr & Hr) & (pu & Hpu & Hu)
                    & (pb & Hpb & Hb)).
  rewrite List.Forall_forall in Hall.
  pose proof (Hall _ Hpl) as Hinl. pose proof (Hall _ Hpr) as Hinr.
  pose proof (Hall _ Hpu) as Hinu. pose proof (Hall _ Hpb) as Hinb.
  apply (inverted_points im _ Hwf) in Hpl as (xl & yl & -> & Hxl & Hyl & Hgl).
  apply (inverted_points im _ Hwf) in Hpr as (xr & yr & -> & Hxr & Hyr & Hgr).
  apply (inverted_points im _ Hwf) in Hpu as (xu & yu & -> & Hxu & Hyu & Hgu).
  apply (inverted_points im _ Hwf) in Hpb as (xb & yb & -> & Hxb & Hyb & Hgb).
  simpl in *.
  split; [lia|]. split; [lia|]. split; [|split; [|split; [|split]]].
  - intros x y Hx Hy Hgray.
    apply (Hall (Z.of_nat x, Z.of_nat y)). apply (inverted_points im _ Hwf).
    exists x, y. auto.
  - exists yl. subst l. now rewrite Nat2Z.id.
  - exists yr. replace (r - 1) with (Z.of_nat xr) by lia. now rewrite Nat2Z.id.
  - exists xu. subst u. now rewrite Nat2Z.id.
  - exists xb. replace (b - 1) with (Z.of_nat yb) by lia. now rewrite Nat2Z.id.
Qed.

Lemma crop_window (im : image pixel) (l u r b : Z) :
  well_formed im ->
  0 <= l -> r <= Z.of_nat (width im) -> 0 <= u -> b <= Z.of_nat (height im) ->
  PIL.convert_RGB (PIL.invert (PIL.crop 0 (l, u, r, b) (PIL.invert (PIL.convert_L im)))) =
  tabulate (Z.to_nat (r - l)) (Z.to_nat (b - u))
    (fun x y => PIL.l2rgb (gray_at im (Z.to_nat l + x) (Z.to_nat u + y))).
Proof.
  intros Hwf Hl Hr Hu Hb.
  unfold PIL.convert_RGB, PIL.invert at 1, PIL.crop.
  rewrite !point_tabulate. apply tabulate_ext. intros x y Hx Hy.
  f_equal. unfold getpixelZ. rewrite inverted_gray. simpl width. simpl height.
  replace (0 <=? l + Z.of_nat x) with true by (symmetry; apply Z.leb_le; lia).
  replace (l + Z.of_nat x <? Z.of_nat (width im)) with true
    by (symmetry; apply Z.ltb_lt; lia).
  replace (0 <=? u + Z.of_nat y) with true by (symmetry; apply Z.leb_le; lia).
  replace (u + Z.of_nat y <? Z.of_nat (height im)) with true
    by (symmetry; apply Z.ltb_lt; lia).
  simpl andb. cbv iota.
  rewrite (getpixel_point (fun p => 255 - PIL.rgb2l p) black 0 im) by (assumption || lia).
  unfold gray_at.
  replace (Z.to_nat (l + Z.of_nat x)) with (Z.to_nat l + x)%nat by lia.
  replace (Z.to_nat (u + Z.of_nat y)) with (Z.to_nat u + y)%nat by lia.
  lia.
Qed.

Lemma autocrop_border_window (im : image pixel) (l u r b : Z) :
  well_formed im ->
  PIL.getbbox (PIL.invert (PIL.convert_L im)) = Some (l, u, r, b) ->
  autocrop_border im =
    tabulate (Z.to_nat (r - l)) (Z.to_nat (b - u))
      (fun x y => PIL.l2rgb (gray_at im (Z.to_nat l + x) (Z.to_nat u + y))).
Proof.
  intros Hwf Hbox.
  destruct (content_box im l u r b Hwf Hbox) as (Hx & Hy & _).
  unfold autocrop_border. rewrite Hbox. apply crop_window; (assumption || lia).
Qed.

(** X1.  When the input holds a pixel that is not white, the Border
    Cropper emits the gray rendering of the window that [getbbox] finds:
    the window is not empty, lies on the image, and the output pixel (x, y)
    is the gray level of the input pixel (left + x, upper + y). *)
Theorem border_crop_window (im : image pixel) (l u r b : Z) :
  well_formed im ->
  PIL.getbbox (PIL.invert (PIL.convert_L im)) = Some (l, u, r, b) ->
  (0 <= l < r /\ r <= Z.of_nat (width im)) /\
  (0 <= u < b /\ b <= Z.of_nat (height im)) /\
  autocrop_border im =
    tabulate (Z.to_nat (r - l)) (Z.to_nat (b - u))
      (fun x y => PIL.l2rgb (gray_at im (Z.to_nat l + x) (Z.to_nat u + y))).
Proof.
  intros Hwf Hbox.
  destruct (content_box im l u r b Hwf Hbox) as (Hx & Hy & _).
  split; [exact Hx|]. split; [exact Hy|].
  now apply autocrop_border_window.
Qed.


Lemma border_crop_window_witness :
  autocrop_border Sample.framed =
  tabulate 4 3 (fun x y => PIL.l2rgb (gray_at Sample.framed (2 + x) (1 + y))).
Proof.
  apply (border_crop_window Sample.framed 2 1 6 4).
  - apply tabulate_well_formed.
  - reflexivity.
Defined.


Lemma gray_at_window (w h : nat) (G : nat -> nat -> Z) (x y : nat) :
  (x < w)%nat -> (y < h)%nat ->
  gray_at (tabulate w h (fun x y => PIL.l2rgb (G x y))) x y = G x y.
Proof.
  intros Hx Hy. unfold gray_at.
  rewrite (getpixel_tabulate black w h (fun x y => PIL.l2rgb (G x y)) x y Hx Hy).
  apply rgb2l_l2rgb.
Qed.

Lemma autocrop_border_well_formed (im : image pixel) :
  well_formed im -> well_formed (autocrop_border im).
Proof.
  intros Hwf. unfold autocrop_border.
  destruct (PIL.getbbox _) as [[[[l u] r] b]|].
  - unfold PIL.convert_RGB, PIL.invert at 1, PIL.crop.
    rewrite !point_tabulate. apply tabulate_well_formed.
  - unfold PIL.convert_RGB, PIL.invert, PIL.convert_L.
    now repeat apply point_well_formed.
Qed.

(** X3.  The Border Cropper is idempotent: cropping its own output changes
    nothing. *)
Theorem border_crop_idempotent (im : image pixel) :
  well_formed im ->
  autocrop_border (autocrop_border im) = autocrop_border im.
Proof.
  intros Hwf.
  destruct (PIL.getbbox (PIL.invert (PIL.convert_L im))) as [[[[l u] r] b]|] eqn:Hbox.
  - pose proof (autocrop_border_window im l u r b Hwf Hbox) as Hout.
    destruct (content_box im l u r b Hwf Hbox)
      as (Hx & Hy & Hin & (yl & Hyl & Hgl) & (yr & Hyr & Hgr) & (xu & Hxu & Hgu)
          & (xb & Hxb & Hgb)).
    set (W := Z.to_nat (r - l)) in *. set (Ht := Z.to_nat (b - u)) in *.
    pose (G := fun x y => gray_at im (Z.to_nat l + x) (Z.to_nat u + y)).
    change (autocrop_border im = tabulate W Ht (fun x y => PIL.l2rgb (G x y))) in Hout.
    assert (Hwf' : well_formed (autocrop_border im)) by now apply autocrop_border_well_formed.
    assert (Hbox' : PIL.getbbox (PIL.invert (PIL.convert_L (autocrop_border im))) =
                    Some (0, 0, Z.of_nat W, Z.of_nat Ht)).
    { apply tight_box_getbbox.
      assert (Hpt : forall x y, (x < W)%nat -> (y < Ht)%nat -> G x y <> 255 ->
                In (Z.of_nat x, Z.of_nat y)
                  (rows_points 0 (rows (PIL.invert (PIL.convert_L (autocrop_border im)))))).
      { intros x y Hxw Hyh Hg. apply (inverted_points _ _ Hwf').
        exists x, y. rewrite Hout. simpl width. simpl height.
        repeat split; [exact Hxw | exact Hyh|].
        now rewrite (gray_at_window W Ht G x y Hxw Hyh). }
      unfold tight_box. split; [|split; [|split; [|split]]].
      - apply List.Forall_forall. intros p Hp.
        apply (inverted_points _ _ Hwf') in Hp as (x & y & -> & Hxw & Hyh & _).
        rewrite Hout in Hxw, Hyh. simpl in Hxw, Hyh. simpl. lia.
      - destruct (Hin (Z.to_nat l) yl ltac:(lia) Hyl Hgl) as [_ Hyl'].
        exists (Z.of_nat 0, Z.of_nat (yl - Z.to_nat u)). split; [|reflexivity].
        apply Hpt; [lia | lia|]. unfold G.
        replace (Z.to_nat l + 0)%nat with (Z.to_nat l) by lia.
        replace (Z.to_nat u + (yl - Z.to_nat u))%nat with yl by lia. exact Hgl.
      - destruct (Hin (Z.to_nat (r - 1)) yr ltac:(lia) Hyr Hgr) as [_ Hyr'].
        exists (Z.of_nat (W - 1), Z.of_nat (yr - Z.to_nat u)). split; [|simpl; lia].
        apply Hpt; [lia | lia|]. unfold G.
        replace (Z.to_nat l + (W - 1))%nat with (Z.to_nat (r - 1)) by lia.
        replace (Z.to_nat u + (yr - Z.to_nat u))%nat with yr by lia. exact Hgr.
      - destruct (Hin xu (Z.to_nat u) Hxu ltac:(lia) Hgu) as [Hxu' _].
        exists (Z.of_nat (xu - Z.to_nat l), Z.of_nat 0). split; [|reflexivity].
        apply Hpt; [lia | lia|]. unfold G.
        replace (Z.to_nat u + 0)%nat with (Z.to_nat u) by lia.
        replace (Z.to_nat l + (xu - Z.to_nat l))%nat with xu by lia. exact Hgu.
      - destruct (Hin xb (Z.to_nat (b - 1)) Hxb ltac:(lia) Hgb) as [Hxb' _].
        exists (Z.of_nat (xb - Z.to_nat l), Z.of_nat (Ht - 1)). split; [|simpl; lia].
        apply Hpt; [lia | lia|]. unfold G.
        replace (Z.to_nat u + (Ht - 1))%nat with (Z.to_nat (b - 1)) by lia.
        replace (Z.to_nat l + (xb - Z.to_nat l))%nat with xb by lia. exact Hgb. }
    pose proof (autocrop_border_window _ _ _ _ _ Hwf' Hbox') as Hout'.
    rewrite Hout'.
    transitivity (tabulate W Ht (fun x y => PIL.l2rgb (G x y))); [|symmetry; exact Hout].
    replace (Z.to_nat (Z.of_nat W - 0)) with W by lia.
    replace (Z.to_nat (Z.of_nat Ht - 0)) with Ht by lia.
    apply tabulate_ext. intros x y Hxw Hyh. f_equal.
    change (Z.to_nat 0) with 0%nat. simpl Nat.add. rewrite Hout.
    apply (gray_at_window W Ht G x y Hxw Hyh).
  - pose proof (autocrop_border_no_box im Hbox) as Hout.
    assert (Hwhite : List.Forall (fun p => p = white) (pixels (autocrop_border im))).
    { rewrite Hout, pixels_point. apply List.Forall_forall. intros p Hp.
      apply List.in_map_iff in Hp as (q & <- & _). reflexivity. }
    rewrite (autocrop_border_no_box _ (white_no_box _ Hwhite)).
    rewrite Hout. apply point_point.
Qed.

Lemma border_crop_idempotent_witness :
  autocrop_border (autocrop_border Sample.framed) = autocrop_border Sample.framed.
Proof. apply (border_crop_idempotent Sample.framed). apply tabulate_well_formed. Defined.

(** ** Orientation Resolver: the state of the search *)

Lemma lstrip_clean (s : string) :
  match lstrip s with
  | EmptyString => True
  | String c _ => isspace c = false
  end.
Proof.
  induction s as [|c s IH]; simpl; [exact I|].
  destruct (isspace c) eqn:Hc; [exact IH | exact Hc].
Qed.

Lemma rstrip_last (s : string) :
  match rstrip s with
  | EmptyString => True
  | String _ _ => exists d, last_char (rstrip s) = Some d /\ isspace d = false
  end.
Proof.
  induction s as [|c s IH]; simpl; [exact I|].
  destruct (rstrip s) as [|c' r] eqn:Hr.
  - destruct (isspace c) eqn:Hc; [exact I|]. exists c. auto.
  - destruct IH as (d & Hd & Hsp). exists d. split; [|exact Hsp].
    simpl in Hd |- *. exact Hd.
Qed.

Lemma rstrip_head (c : ascii) (s : string) :
  isspace c = false -> exists r, rstrip (String c s) = String c r.
Proof.
  intros Hc. simpl. destruct (rstrip s) as [|c' r].
  - rewrite Hc. eauto.
  - eauto.
Qed.

Lemma strip_stripped (s : string) : stripped (strip s).
Proof.
  unfold strip. pose proof (lstrip_clean s) as Hl.
  destruct (lstrip s) as [|c t] eqn:Hs; [exact I|].
  destruct (rstrip_head c t Hl) as [r Hr].
  pose proof (rstrip_last (String c t)) as Hlast. rewrite Hr in *.
  split; assumption.
Qed.

Lemma rstrip_fixed (s : string) :
  (forall d, last_char s = Some d -> isspace d = false) -> rstrip s = s.
Proof.
  induction s as [|c s IH]; intros Hlast; [reflexivity|].
  simpl. destruct s as [|c' s'].
  - simpl. now rewrite (Hlast c eq_refl).
  - rewrite IH by (intros d Hd; apply Hlast; exact Hd). reflexivity.
Qed.

Lemma stripped_fixed (s : string) : stripped s -> strip s = s.
Proof.
  destruct s as [|c s]; [reflexivity|]. intros (Hc & d & Hd & Hsp).
  unfold strip. cbn [lstrip]. rewrite Hc.
  apply rstrip_fixed. intros d' Hd'. congruence.
Qed.

Lemma space_isspace (c : ascii) : (nat_of_ascii c =? 32)%nat = true -> isspace c = true.
Proof.
  intros Hc. apply Nat.eqb_eq in Hc. unfold isspace. rewrite Hc. reflexivity.
Qed.

Lemma has_space_before_last (s : string) (d : ascii) :
  has_space s = true -> last_char s = Some d -> isspace d = false ->
  (2 <= String.length s)%nat.
Proof.
  destruct s as [|c [|c' s']]; simpl; intros Hsp Hlast Hd.
  - discriminate.
  - injection Hlast as ->. rewrite orb_false_r in Hsp.
    apply space_isspace in Hsp. congruence.
  - lia.
Qed.

Lemma stripped_with_space (s : string) :
  stripped s -> has_space s = true -> 3 <= len s.
Proof.
  destruct s as [|c s]; [discriminate|]. intros (Hc & d & Hd & Hsp) Hspace.
  simpl in Hspace. destruct (nat_of_ascii c =? 32)%nat eqn:Hc32.
  - apply space_isspace in Hc32. congruence.
  - simpl in Hspace. destruct s as [|c' s']; [discriminate|].
    pose proof (has_space_before_last (String c' s') d Hspace Hd Hsp) as Hlen.
    unfold len. simpl String.length in *. lia.
Qed.

Lemma candidate_text_stripped `{Externals} (cropped_img : image pixel) (rotation : Z)
    (text : string) :
  candidate_text cropped_img rotation = Ok (Some text) -> stripped text.
Proof.
  unfold candidate_text. destruct (_ / 10 =? 0); [discriminate|].
  destruct (cvtColor_GRAY _) as [gray|]; [|discriminate]. simpl.
  destruct (mean_lt gray 100); [|discriminate].
  destruct (image_to_string _) as [raw|]; [|discriminate].
  intros [= <-]. apply strip_stripped.
Qed.

(** X4.  Whatever the page and the recognizer, a finished search ends on
    one of the four rotations; without an orientation found it is in its
    initial state; with one found, the text kept has no white space at
    either end, holds a space, and so is at least three characters long. *)
Theorem orientation_result `{Externals} (cropped_img : image pixel) (st : search) :
  detect_orientation cropped_img = Ok st ->
  In (best_rotation st) [0; 270; 90; 180] /\
  (found_orientation st = false -> st = search_start) /\
  (found_orientation st = true ->
   has_space (best_text st) = true /\ strip (best_text st) = best_text st /\
   3 <= len (best_text st)).
Proof.
  intros Hrun.
  destruct (detect_orientation_kept cropped_img st Hrun)
    as [[-> _]|(Hfound & before & after & Hsplit & [Htext Hspace] & _)].
  - split; [now left|]. split; [reflexivity | discriminate].
  - split; [|split].
    + change [0; 270; 90; 180] with rotations. rewrite Hsplit.
      apply List.in_app_iff. right. now left.
    + congruence.
    + intros _. pose proof (candidate_text_stripped _ _ _ Htext) as Hstripped.
      split; [exact Hspace|]. split; [now apply stripped_fixed|].
      now apply stripped_with_space.
Qed.

Lemma orientation_result_witness :
  In 0 [0; 270; 90; 180] /\
  (true = false -> Search 0 "a side" true = search_start) /\
  (true = true ->
   has_space "a side" = true /\ strip "a side" = "a side" /\ 3 <= len "a side").
Proof.
  apply (orientation_result (H := Sample.externals) Sample.photo (Search 0 "a side" true)).
  vm_compute. reflexivity.
Defined.

(** X5.  A turn of the search never shortens the best text and never
    loses an orientation once found; the same holds from any state to the
    end of the loop over any list of rotations. *)
Theorem search_never_regresses `{Externals} (cropped_img : image pixel)
    (l : list Z) (st st' : search) :
  for_each (try_rotation cropped_img) l st = Ok st' ->
  len (best_text st) <= len (best_text st') /\
  (found_orientation st = true -> found_orientation st' = true).
Proof.
  revert st. induction l as [|r l IH]; intros st Hrun; simpl in Hrun.
  - injection Hrun as <-. split; [lia | auto].
  - destruct (try_rotation cropped_img st r) as [st1|e] eqn:Hstep; [|discriminate].
    simpl in Hrun. destruct (IH st1 Hrun) as [Hlen Hfound].
    rewrite try_rotation_text in Hstep.
    destruct (candidate_text cropped_img r) as [[text|]|e];
      simpl in Hstep; [| |discriminate]; injection Hstep as <-; [|auto].
    destruct (accept_cases st r text) as [(Hlonger & _ & Heq)|(_ & Heq)];
      rewrite Heq in *; simpl in *; split; auto; lia.
Qed.

Lemma search_never_regresses_witness :
  len "" <= len "a side" /\ (false = true -> true = true).
Proof.
  apply (search_never_regresses (H := Sample.externals) Sample.photo [0; 270; 90; 180]
           search_start (Search 0 "a side" true)).
  vm_compute. reflexivity.
Defined.

(** ** Orientation Resolver: which candidates reach the recognizer *)

Lemma rotate_size {A} (fill : A) (angle : Z) (im : image A) :
  (width (PIL.rotate fill angle im) = width im /\
   height (PIL.rotate fill angle im) = height im) \/
  (width (PIL.rotate fill angle im) = height im /\
   height (PIL.rotate fill angle im) = width im).
Proof.
  unfold PIL.rotate.
  destruct (angle mod 360 =? 0); [now left|].
  destruct (angle mod 360 =? 180); [now left|].
  destruct (angle mod 360 =? 90); [now right|].
  destruct (angle mod 360 =? 270); [now right | now left].
Qed.

Lemma short_candidate_skipped `{Externals} (cropped_img : image pixel) (rotation : Z) :
  (height (PIL.rotate black rotation cropped_img) < 10)%nat ->
  candidate_text cropped_img rotation = Ok None.
Proof.
  intros Hshort. unfold candidate_text.
  rewrite Z.div_small by lia. reflexivity.
Qed.

(** X6.  A candidate whose rotated region is less than 10 pixels high has
    no header band and is skipped: the rotations 0 and 180 of a region
    less than 10 pixels high, the rotations 270 and 90 of a region less
    than 10 pixels wide.  A region below 10 pixels in both directions is
    never rotated, whatever the recognizer would say. *)
Theorem small_region_not_rotated `{Externals} (cropped_img : image pixel) :
  ((height cropped_img < 10)%nat ->
   candidate_text cropped_img 0 = Ok None /\ candidate_text cropped_img 180 = Ok None) /\
  ((width cropped_img < 10)%nat ->
   candidate_text cropped_img 270 = Ok None /\ candidate_text cropped_img 90 = Ok None) /\
  ((height cropped_img < 10)%nat -> (width cropped_img < 10)%nat ->
   detect_orientation cropped_img = Ok search_start).
Proof.
  split; [|split].
  - intros Hh. split; apply short_candidate_skipped; exact Hh.
  - intros Hw. split; apply short_candidate_skipped; exact Hw.
  - intros Hh Hw.
    assert (Hskip : forall r st, try_rotation cropped_img st r = Ok st).
    { intros r st. rewrite try_rotation_text, short_candidate_skipped; [reflexivity|].
      destruct (rotate_size black r cropped_img) as [[_ ->]|[_ ->]]; assumption. }
    unfold detect_orientation, rotations. cbn [for_each].
    repeat (rewrite Hskip; unfold mbind, result_bind). reflexivity.
Qed.

Lemma small_region_not_rotated_witness :
  detect_orientation (H := Sample.externals) Sample.framed = Ok search_start.
Proof.
  apply (small_region_not_rotated (H := Sample.externals) Sample.framed); simpl; lia.
Defined.

Lemma sum_at_least (lo : Z) (l : list Z) :
  List.Forall (fun v => lo <= v) l ->
  lo * Z.of_nat (List.length l) <= fold_right Z.add 0 l.
Proof. induction 1; simpl List.length; simpl fold_right; lia. Qed.

Lemma sum_at_most (hi : Z) (l : list Z) :
  List.Forall (fun v => v <= hi) l ->
  fold_right Z.add 0 l <= hi * Z.of_nat (List.length l).
Proof. induction 1; simpl List.length; simpl fold_right; lia. Qed.

Lemma pixels_tabulate_length {A} (w h : nat) (f : nat -> nat -> A) :
  List.length (pixels (tabulate w h f)) = (h * w)%nat.
Proof.
  unfold pixels, tabulate. simpl.
  assert (Hrows : forall ys : list nat,
            List.length
              (List.concat (List.map (fun y => List.map (fun x => f x y) (seq 0 w)) ys)) =
            (List.length ys * w)%nat).
  { induction ys as [|y ys IH]; simpl; [reflexivity|].
    now rewrite List.length_app, IH, List.length_map, List.length_seq. }
  now rewrite Hrows, List.length_seq.
Qed.

Lemma top_slice_pixel_count (cropped_img : image pixel) (rotation : Z) :
  Img.empty (top_slice_of cropped_img rotation) = false ->
  (0 < List.length (pixels (top_slice_of cropped_img rotation)))%nat.
Proof.
  unfold top_slice_of, PIL.crop, Img.empty. rewrite pixels_tabulate_length. simpl.
  intros Hsize. apply orb_false_iff in Hsize as [Hw Hh].
  apply Nat.eqb_neq in Hw, Hh. nia.
Qed.



(** ** Region Detector: the mask, the area test and the box strings *)


Lemma Qle_bool_half (a : Z) : Qle_bool (a # 2) 5000 = (a <=? 10000).
Proof.
  unfold Qle_bool. simpl.
  destruct (Z.leb_spec (a * 1) 10000), (Z.leb_spec a 10000); (reflexivity || lia).
Qed.

(** X9.  The area test is on the polygon through the contour's points, not
    on the pixels its box covers: the contour of an upright rectangle from
    (x0, y0) to (x1, y1) has area (x1-x0)*(y1-y0), its box is one pixel
    wider and higher, and the box is emitted exactly when that area is
    above 5000. *)
Theorem rectangle_contour (x0 y0 x1 y1 : Z) (boxes : list string) :
  x0 <= x1 -> y0 <= y1 ->
  (cv2.contourArea (rectangle x0 y0 x1 y1) == inject_Z ((x1 - x0) * (y1 - y0)))%Q /\
  cv2.boundingRect (rectangle x0 y0 x1 y1) = (x0, y0, x1 - x0 + 1, y1 - y0 + 1) /\
  add_box boxes (rectangle x0 y0 x1 y1) =
    if 5000 <? (x1 - x0) * (y1 - y0)
    then (boxes ++ [format_box (x1 - x0 + 1) (y1 - y0 + 1) x0 y0])%list
    else boxes.
Proof.
  intros Hx Hy.
  assert (Hsum : Z.abs (cv2.cross_sum (List.last (rectangle x0 y0 x1 y1) (0, 0))
                          (rectangle x0 y0 x1 y1)) = 2 * ((x1 - x0) * (y1 - y0))).
  { unfold rectangle. simpl. nia. }
  assert (Hrect : cv2.boundingRect (rectangle x0 y0 x1 y1) =
                  (x0, y0, x1 - x0 + 1, y1 - y0 + 1)).
  { unfold rectangle, cv2.boundingRect. simpl. repeat f_equal; lia. }
  split; [|split].
  - unfold cv2.contourArea. rewrite Hsum. unfold Qeq, inject_Z. simpl. lia.
  - exact Hrect.
  - unfold add_box. rewrite Hrect. unfold cv2.contourArea. rewrite Hsum, Qle_bool_half.
    destruct (Z.ltb_spec 5000 ((x1 - x0) * (y1 - y0))),
             (Z.leb_spec (2 * ((x1 - x0) * (y1 - y0))) 10000);
      (reflexivity || lia).
Qed.

Lemma rectangle_contour_witness :
  (cv2.contourArea (rectangle 0 0 71 70) == inject_Z (71 * 70))%Q /\
  cv2.boundingRect (rectangle 0 0 71 70) = (0, 0, 72, 71) /\
  add_box [] (rectangle 0 0 71 70) = [].
Proof. apply (rectangle_contour 0 0 71 70 []); lia. Defined.

(** X10.  A contour of fewer than three points encloses nothing and is
    always discarded. *)
Theorem short_contour_discarded (cnt : cv2.contour) (boxes : list string) :
  (List.length cnt <= 2)%nat -> add_box boxes cnt = boxes.
Proof.
  intros Hlen. unfold add_box.
  assert (Harea : Z.abs (cv2.cross_sum (List.last cnt (0, 0)) cnt) = 0).
  { destruct cnt as [|[px py] [|[qx qy] [|r cnt]]]; simpl in *; lia. }
  unfold cv2.contourArea. rewrite Harea. reflexivity.
Qed.

Lemma short_contour_discarded_witness :
  add_box ["9x9+0+0"] [(0, 0); (4000, 4000)] = ["9x9+0+0"].
Proof. apply (short_contour_discarded [(0, 0); (4000, 4000)]). simpl. lia. Defined.

(** X11.  The box string does not carry signs: written and read back, any
    four integers come out as their absolute values, so a negative offset
    would be read as a positive one. *)
Theorem box_string_drops_signs (w h x y : Z) :
  parse_box (format_box w h x y) = Ok (Z.abs w, Z.abs h, Z.abs x, Z.abs y) /\
  (x < 0 -> parse_box (format_box w h x y) <> Ok (w, h, x, y)).
Proof.
  split; [apply parse_format_box|].
  intros Hneg. rewrite parse_format_box. intros [= _ _ Hx _]. lia.
Qed.

Lemma box_string_drops_signs_witness :
  parse_box (format_box 40 30 (-7) 5) <> Ok (40, 30, -7, 5).
Proof. apply (box_string_drops_signs 40 30 (-7) 5). lia. Defined.

(** ** process_sub_image: errors and effects *)

Lemma parse_box_runs (box : string) :
  (List.length (findall_digits box) <> 4%nat -> parse_box box = Raise ValueError) /\
  (List.length (findall_digits box) = 4%nat -> exists b, parse_box box = Ok b).
Proof.
  unfold parse_box.
  destruct (findall_digits box) as [|a [|b [|c [|d [|e l]]]]]; simpl;
    split; intros Hlen; try reflexivity; try congruence; try lia; eauto.
Qed.

(** X12.  [process_sub_image] reads the box before it opens the page: a
    box string that does not hold exactly four runs of digits raises
    ValueError, whether or not the page exists, and a well-formed box for a
    missing page raises FileNotFoundError. *)
Theorem process_sub_image_errors `{Externals} (w : world)
    (input_image box output_name : string) :
  (List.length (findall_digits box) <> 4%nat ->
   process_sub_image w input_image box output_name = Raise ValueError) /\
  (List.length (findall_digits box) = 4%nat ->
   files w !! input_image = None ->
   process_sub_image w input_image box output_name = Raise FileNotFoundError).
Proof.
  unfold process_sub_image. split.
  - intros Hlen. now rewrite (proj1 (parse_box_runs box) Hlen).
  - intros Hlen Hfile. destruct (proj2 (parse_box_runs box) Hlen) as [[[[bw bh] x] y] ->].
    simpl. unfold Image_open. now rewrite Hfile.
Qed.

Lemma process_sub_image_errors_witness :
  process_sub_image (H := Sample.externals) Sample.start "missing.jpg" "10x20+3" "out.jpg"
    = Raise ValueError /\
  process_sub_image (H := Sample.externals) Sample.start "missing.jpg" "10x20+3+4" "out.jpg"
    = Raise FileNotFoundError.
Proof.
  split.
  - apply (process_sub_image_errors (H := Sample.externals)). vm_compute. lia.
  - apply (process_sub_image_errors (H := Sample.externals)); reflexivity.
Defined.

Lemma process_sub_image_effect `{Externals} (w w' : world)
    (input_image box output_name : string) :
  process_sub_image w input_image box output_name = Ok w' ->
  exists bw bh x y img st,
    parse_box box = Ok (bw, bh, x, y) /\
    Image_open w input_image = Ok img /\
    detect_orientation (PIL.crop black (x, y, x + bw, y + bh) img) = Ok st /\
    w' = written w output_name
           (autocrop_border
              (PIL.rotate white (best_rotation st)
                 (PIL.crop black (x, y, x + bw, y + bh) img))).
Proof.
  unfold process_sub_image. intros Hrun.
  destruct (parse_box box) as [[[[bw bh] x] y]|e]; [|discriminate]. simpl in Hrun.
  destruct (Image_open w input_image) as [img|] eqn:Himg; [|discriminate].
  simpl in Hrun.
  destruct (detect_orientation _) as [st|e] eqn:Hst; [|discriminate]. simpl in Hrun.
  apply Image_save_Ok in Hrun as (-> & _). exists bw, bh, x, y, img, st. auto.
Qed.

Lemma rotate_size_upright {A} (fill : A) (angle : Z) (im : image A) :
  In angle [0; 180] ->
  width (PIL.rotate fill angle im) = width im /\
  height (PIL.rotate fill angle im) = height im.
Proof. intros [<-|[<-|[]]]; split; reflexivity. Qed.

Lemma rotate_size_quarter {A} (fill : A) (angle : Z) (im : image A) :
  In angle [270; 90] ->
  width (PIL.rotate fill angle im) = height im /\
  height (PIL.rotate fill angle im) = width im.
Proof. intros [<-|[<-|[]]]; split; reflexivity. Qed.

Lemma rotate_well_formed {A} (fill : A) (angle : Z) (im : image A) :
  well_formed im -> well_formed (PIL.rotate fill angle im).
Proof.
  intros Hwf. unfold PIL.rotate.
  destruct (angle mod 360 =? 0); [assumption|].
  destruct (angle mod 360 =? 180); [apply tabulate_well_formed|].
  destruct (angle mod 360 =? 90); [apply tabulate_well_formed|].
  destruct (angle mod 360 =? 270); [apply tabulate_well_formed | assumption].
Qed.

Lemma autocrop_border_size (im : image pixel) :
  well_formed im -> (0 < width im)%nat -> (0 < height im)%nat ->
  (0 < width (autocrop_border im) <= width im)%nat /\
  (0 < height (autocrop_border im) <= height im)%nat.
Proof.
  intros Hwf Hw Hh.
  destruct (PIL.getbbox (PIL.invert (PIL.convert_L im))) as [[[[l u] r] b]|] eqn:Hbox.
  - destruct (content_box im l u r b Hwf Hbox) as (Hx & Hy & _).
    rewrite (autocrop_border_window im l u r b Hwf Hbox). simpl. lia.
  - rewrite (autocrop_border_no_box im Hbox). simpl. lia.
Qed.

(** X13.  The image saved for a box of positive width and height is never
    empty, has rows that agree with its size, and fits in the box: within
    width by height when the rotation kept is 0 or 180, within height by
    width, turned by a quarter, when the rotation kept is 270 or 90; the
    rotation kept is one of these four. *)
Theorem saved_image_size `{Externals} (w w' : world)
    (input_image box output_name : string) (bw bh x y : Z) :
  process_sub_image w input_image box output_name = Ok w' ->
  parse_box box = Ok (bw, bh, x, y) ->
  0 < bw -> 0 < bh ->
  exists img st final_image,
    Image_open w input_image = Ok img /\
    detect_orientation (PIL.crop black (x, y, x + bw, y + bh) img) = Ok st /\
    files w' !! output_name = Some final_image /\
    well_formed final_image /\
    (0 < width final_image)%nat /\ (0 < height final_image)%nat /\
    In (best_rotation st) [0; 270; 90; 180] /\
    (In (best_rotation st) [0; 180] ->
     Z.of_nat (width final_image) <= bw /\ Z.of_nat (height final_image) <= bh) /\
    (In (best_rotation st) [270; 90] ->
     Z.of_nat (width final_image) <= bh /\ Z.of_nat (height final_image) <= bw).
Proof.
  intros Hrun Hparse Hbw Hbh.
  apply process_sub_image_effect in Hrun
    as (bw' & bh' & x' & y' & img & st & Hparse' & Himg & Hst & ->).
  rewrite Hparse in Hparse'. injection Hparse' as <- <- <- <-.
  set (cropped := PIL.crop black (x, y, x + bw, y + bh) img) in *.
  set (rotated := PIL.rotate white (best_rotation st) cropped).
  assert (Hcw : width cropped = Z.to_nat bw) by (unfold cropped; simpl; f_equal; lia).
  assert (Hch : height cropped = Z.to_nat bh) by (unfold cropped; simpl; f_equal; lia).
  assert (Hwf : well_formed rotated).
  { apply rotate_well_formed. unfold cropped, PIL.crop. apply tabulate_well_formed. }
  assert (Hrot : In (best_rotation st) [0; 270; 90; 180]).
  { destruct (detect_orientation_kept cropped st Hst)
      as [[-> _]|(_ & before & after & Hsplit & _)]; [now left|].
    change [0; 270; 90; 180] with rotations. rewrite Hsplit.
    apply List.in_app_iff. right. now left. }
  assert (Hsize : (0 < width rotated)%nat /\ (0 < height rotated)%nat).
  { destruct (rotate_size white (best_rotation st) cropped) as [[Hw Hh]|[Hw Hh]];
      fold rotated in Hw, Hh; lia. }
  destruct (autocrop_border_size rotated Hwf (proj1 Hsize) (proj2 Hsize)) as [Hfw Hfh].
  exists img, st, (autocrop_border rotated).
  split; [exact Himg|]. split; [exact Hst|].
  split; [simpl; apply lookup_insert_eq|].
  split; [now apply autocrop_border_well_formed|].
  split; [lia|]. split; [lia|]. split; [exact Hrot|]. split.
  - intros Hup.
    destruct (rotate_size_upright white (best_rotation st) cropped Hup) as [Hw Hh].
    fold rotated in Hw, Hh. lia.
  - intros Hquarter.
    destruct (rotate_size_quarter white (best_rotation st) cropped Hquarter) as [Hw Hh].
    fold rotated in Hw, Hh. lia.
Qed.

Lemma saved_image_size_witness :
  exists w' final_image,
    process_sub_image (H := Sample.externals) Sample.start
      "page.jpg" "100x90+10+5" "final_image_1.jpg" = Ok w' /\
    files w' !! "final_image_1.jpg" = Some final_image /\
    (0 < width final_image)%nat /\ (0 < height final_image)%nat /\
    Z.of_nat (width final_image) <= 100 /\ Z.of_nat (height final_image) <= 90.
Proof.
  destruct (process_sub_image (H := Sample.externals) Sample.start
              "page.jpg" "100x90+10+5" "final_image_1.jpg") as [w'|e] eqn:Hrun;
    [|vm_compute in Hrun; discriminate].
  destruct (saved_image_size (H := Sample.externals) _ _ _ _ _ 100 90 10 5 Hrun)
    as (img & st & final_image & Himg & Hst & Hfile & _ & Hw & Hh & _ & Hup & _);
    [reflexivity | lia | lia|].
  assert (Hrot : best_rotation st = 0).
  { injection Himg as <-. vm_compute in Hst. injection Hst as <-. reflexivity. }
  exists w', final_image. rewrite Hrot in Hup.
  destruct (Hup ltac:(now left)) as [Hfw Hfh].
  split; [reflexivity|]. split; [exact Hfile|]. split; [exact Hw|].
  split; [exact Hh|]. split; assumption.
Defined.

(** ** main: the files it touches and how runs compose *)

Lemma save_boxes_frame `{Externals} (image_file : string) (boxes : list string) :
  forall st st' : world * Z,
    for_each (save_box image_file) boxes st = Ok st' ->
    snd st' = snd st + Z.of_nat (List.length boxes) /\
    forall name,
      (forall k, snd st < k <= snd st' -> name <> output_name_of k) ->
      files (fst st') !! name = files (fst st) !! name.
Proof.
  induction boxes as [|box boxes IH]; intros st st' Hrun; simpl in Hrun.
  - injection Hrun as <-. split; [simpl; lia | auto].
  - destruct (save_box image_file st box) as [st1|e] eqn:Hstep; [|discriminate].
    simpl in Hrun.
    destruct (save_box_written _ _ _ _ Hstep) as [final_image ->].
    destruct (IH _ st' Hrun) as (Hk & Hframe). cbn [fst snd] in Hk, Hframe.
    split; [simpl List.length; lia|].
    intros name Hname. rewrite Hframe by (intros k Hk'; apply Hname; lia).
    simpl. apply lookup_insert_ne.
    intros Heq. apply (Hname (snd st + 1)); [lia | now symmetry].
Qed.

Lemma pages_frame `{Externals} (image_files : list string) :
  forall st st' : world * Z,
    for_each process_page image_files st = Ok st' ->
    snd st <= snd st' /\
    forall name,
      (forall k, snd st < k <= snd st' -> name <> output_name_of k) ->
      files (fst st') !! name = files (fst st) !! name.
Proof.
  induction image_files as [|image_file rest IH]; intros st st' Hrun; simpl in Hrun.
  - injection Hrun as <-. split; [lia | auto].
  - destruct (process_page st image_file) as [st1|e] eqn:Hpage; [|discriminate].
    simpl in Hrun. unfold process_page in Hpage.
    destruct (save_boxes_frame _ _ _ _ Hpage) as (Hk1 & Hframe1).
    destruct (IH st1 st' Hrun) as (Hk & Hframe).
    split; [lia|]. intros name Hname.
    rewrite Hframe by (intros k Hk'; apply Hname; lia).
    apply Hframe1. intros k Hk'. apply Hname. lia.
Qed.



(** The loops that keep their state agree with the loops that do not. *)
Lemma for_each_keep_agrees {A S : Type} (body : S -> A -> result S)
    (body_keep : S -> A -> S * option exn) :
  (forall s a,
     match body s a with
     | Ok s' => body_keep s a = (s', None)
     | Raise e => exists s', body_keep s a = (s', Some e)
     end) ->
  forall l s,
    match for_each body l s with
    | Ok s' => for_each_keep body_keep l s = (s', None)
    | Raise e => exists s', for_each_keep body_keep l s = (s', Some e)
    end.
Proof.
  intros Hbody. induction l as [|a l IH]; intros s; simpl; [reflexivity|].
  specialize (Hbody s a). destruct (body s a) as [s1|e]; simpl.
  - rewrite Hbody. apply IH.
  - destruct Hbody as [s1 ->]. eauto.
Qed.

Lemma main_run_agrees `{Externals} (w : world) (image_files : list string) :
  match main w image_files with
  | Ok st => main_run w image_files = (st, None)
  | Raise e => exists st, main_run w image_files = (st, Some e)
  end.
Proof.
  unfold main, main_run. apply for_each_keep_agrees. intros st image_file.
  unfold process_page, process_page_keep. apply for_each_keep_agrees.
  intros st1 box. unfold save_box_keep.
  destruct (save_box image_file st1 box); eauto.
Qed.

Lemma main_run_returns `{Externals} (w : world) (image_files : list string)
    (st : world * Z) :
  main_run w image_files = (st, None) -> main w image_files = Ok st.
Proof.
  intros Hrun. pose proof (main_run_agrees w image_files) as Hagree.
  destruct (main w image_files) as [st0|e].
  - rewrite Hrun in Hagree. congruence.
  - destruct Hagree as [st0 Hagree]. rewrite Hrun in Hagree. discriminate.
Qed.

Lemma main_run_raises `{Externals} (w : world) (image_files : list string)
    (st : world * Z) (e : exn) :
  main_run w image_files = (st, Some e) -> main w image_files = Raise e.
Proof.
  intros Hrun. pose proof (main_run_agrees w image_files) as Hagree.
  destruct (main w image_files) as [st0|e0].
  - rewrite Hrun in Hagree. discriminate.
  - destruct Hagree as [st0 Hagree]. rewrite Hrun in Hagree. congruence.
Qed.

Lemma boxes_keep `{Externals} (image_file : string) (boxes : list string) :
  forall (st st' : world * Z) (out : option exn),
    for_each_keep (save_box_keep image_file) boxes st = (st', out) ->
    exists m, saved_since st st' out m.
Proof.
  induction boxes as [|box boxes IH]; intros st st' out Hrun; simpl in Hrun.
  - injection Hrun as <- <-. exists 0%nat. unfold saved_since. simpl.
    rewrite List.app_nil_r. repeat split; auto. lia.
  - unfold save_box_keep in Hrun at 1.
    destruct (save_box image_file st box) as [st1|e] eqn:Hstep.
    + destruct (save_box_written _ _ _ _ Hstep) as [final_image ->].
      destruct (IH _ _ _ Hrun) as (m & Hsaved & Hnew & Hfiles & Hk).
      cbn [fst snd] in Hsaved, Hnew, Hfiles, Hk.
      exists (S m). unfold saved_since. rewrite count_from_S. cbn [List.map].
      split; [rewrite Hsaved; simpl; now rewrite <- List.app_assoc|].
      split; [|split; [|lia]].
      * constructor; [|exact Hnew].
        apply Hfiles. simpl. apply lookup_insert_is_Some'. now left.
      * intros name Hname. apply Hfiles. simpl. apply lookup_insert_is_Some'. now right.
    + injection Hrun as <- <-. exists 0%nat. unfold saved_since. simpl.
      rewrite List.app_nil_r. repeat split; auto. lia.
Qed.

Lemma pages_keep `{Externals} (image_files : list string) :
  forall (st st' : world * Z) (out : option exn),
    for_each_keep process_page_keep image_files st = (st', out) ->
    exists m, saved_since st st' out m.
Proof.
  induction image_files as [|image_file rest IH]; intros st st' out Hrun; simpl in Hrun.
  - injection Hrun as <- <-. exists 0%nat. unfold saved_since. simpl.
    rewrite List.app_nil_r. repeat split; auto. lia.
  - destruct (process_page_keep st image_file) as [st1 [e|]] eqn:Hpage.
    + injection Hrun as <- <-. unfold process_page_keep in Hpage.
      exact (boxes_keep _ _ _ _ _ Hpage).
    + unfold process_page_keep in Hpage.
      destruct (boxes_keep _ _ _ _ _ Hpage) as (m1 & Hsaved1 & Hnew1 & Hfiles1 & Hk1).
      destruct (IH _ _ _ Hrun) as (m & Hsaved & Hnew & Hfiles & Hk).
      exists (m1 + m)%nat. unfold saved_since.
      rewrite count_from_app, List.map_app.
      replace (snd st + Z.of_nat m1) with (snd st1) by lia.
      split; [rewrite Hsaved, Hsaved1; now rewrite <- List.app_assoc|].
      split; [|split; [auto | lia]].
      apply List.Forall_app. split; [|exact Hnew].
      eapply List.Forall_impl; [|exact Hnew1]. simpl. auto.
Qed.

(** X15.  However a run of the page loop ends, the files it has saved are
    final_image_1.jpg, final_image_2.jpg, ... without a gap, and they are
    there: when the loop returns, the count of saved images is their
    number; when an exception escapes [process_sub_image], the count is one
    more, the image being counted before it is processed, and the files
    saved before stay. *)
Theorem saved_names_without_gap `{Externals} (w w' : world) (image_files : list string)
    (total_images_saved : Z) (out : option exn) :
  main_run w image_files = ((w', total_images_saved), out) ->
  exists m : nat,
    let names :=
      List.map (fun i => "final_image_" ++ str (Z.of_nat i) ++ ".jpg") (seq 1 m) in
    saved w' = (saved w ++ names)%list /\
    List.Forall (fun name => is_Some (files w' !! name)) names /\
    match out with
    | None =>
        total_images_saved = Z.of_nat m /\
        main w image_files = Ok (w', total_images_saved)
    | Some e =>
        total_images_saved = Z.of_nat m + 1 /\ main w image_files = Raise e
    end.
Proof.
  intros Hrun.
  destruct (pages_keep image_files (w, 0) (w', total_images_saved) out Hrun)
    as (m & Hsaved & Hnew & _ & Hk).
  cbn [fst snd] in Hsaved, Hnew, Hk.
  assert (Hnames : List.map output_name_of (count_from 0 m) =
                   List.map (fun i => "final_image_" ++ str (Z.of_nat i) ++ ".jpg") (seq 1 m)).
  { unfold count_from. rewrite List.map_map. reflexivity. }
  rewrite Hnames in Hsaved, Hnew.
  exists m. split; [exact Hsaved|]. split; [exact Hnew|].
  destruct out as [e|].
  - split; [lia|]. exact (main_run_raises _ _ _ _ Hrun).
  - split; [lia|]. exact (main_run_returns _ _ _ Hrun).
Qed.

Lemma saved_names_without_gap_witness :
  exists w' m,
    main_run (H := Sample.no_hdr) Sample.hdr_start ["page.jpg"; "page.hdr"] =
      ((w', 2), Some OSError) /\
    saved w' =
      List.map (fun i => ("final_image_" ++ str (Z.of_nat i) ++ ".jpg")%string) (seq 1 m) /\
    2 = Z.of_nat m + 1.
Proof.
  destruct (main_run (H := Sample.no_hdr) Sample.hdr_start ["page.jpg"; "page.hdr"])
    as [[w' k] out] eqn:Hrun.
  assert (Hend : k = 2 /\ out = Some OSError).
  { change k with (snd (fst ((w', k), out))). change out with (snd ((w', k), out)) at 2.
    rewrite <- Hrun. vm_compute. split; reflexivity. }
  destruct Hend as [-> ->].
  destruct (saved_names_without_gap (H := Sample.no_hdr) _ _ _ _ _ Hrun)
    as (m & Hsaved & _ & Hk & _).
  exists w', m. split; [reflexivity|]. split; [exact Hsaved | exact Hk].
Defined.

(** ** convert_pdf_to_images and the whole of main *)

Lemma convert_pdf_keeps_saved `{System} (w : world) (input_file temp_dir : string) :
  saved (fst (convert_pdf_to_images w input_file temp_dir)) = saved w.
Proof.
  unfold convert_pdf_to_images.
  destruct (convert_from_path input_file temp_dir (files w)) as [fs [[|page pages]|e]];
    reflexivity.
Qed.

(** X16.  [convert_pdf_to_images] never returns an empty list: it returns
    the page files the rasterizer gave, at least one, or ends the program
    with status 1, when the rasterizer raised or gave no page; it saves no
    image itself. *)
Theorem convert_pdf_to_images_result `{System} (w : world) (input_file temp_dir : string) :
  match snd (convert_pdf_to_images w input_file temp_dir) with
  | Returns image_paths =>
      image_paths <> [] /\
      snd (convert_from_path input_file temp_dir (files w)) = Ok image_paths
  | SysExit status =>
      status = 1 /\
      (snd (convert_from_path input_file temp_dir (files w)) = Ok [] \/
       exists e, snd (convert_from_path input_file temp_dir (files w)) = Raise e)
  end /\
  saved (fst (convert_pdf_to_images w input_file temp_dir)) = saved w.
Proof.
  unfold convert_pdf_to_images.
  destruct (convert_from_path input_file temp_dir (files w)) as [fs [[|page pages]|e]];
    simpl; split; try reflexivity.
  - split; [reflexivity | now left].
  - split; [discriminate | reflexivity].
  - split; [reflexivity | right; eauto].
Qed.

Lemma main_returned `{Externals} (w w' : world) (image_files : list string)
    (total_images_saved : Z) :
  main w image_files = Ok (w', total_images_saved) ->
  saved w' =
    (saved w ++
     List.map output_name_of (count_from 0 (Z.to_nat total_images_saved)))%list /\
  List.Forall (fun name => is_Some (files w' !! name))
    (List.map output_name_of (count_from 0 (Z.to_nat total_images_saved))).
Proof.
  intros Hrun.
  destruct (pages_ok image_files (w, 0) (w', total_images_saved) Hrun)
    as (Hk & Hsaved & _ & Hnew).
  cbn [fst snd] in Hk, Hsaved, Hnew.
  replace (Z.to_nat total_images_saved)
    with (List.length (detected (w, 0) image_files)) by lia.
  auto.
Qed.

(** The world in which the [finally] clause runs. *)
Lemma main_program_finally `{Externals} `{System} (w : world) (input_file : string) :
  exists w1, fst (main_program w input_file) = rmtree w1 (mkdtemp (files w)).
Proof.
  unfold main_program.
  destruct (endswith (lower input_file) ".pdf").
  - destruct (convert_pdf_to_images w input_file _) as [w1 [image_files|status]];
      [|simpl; eauto].
    destruct (main_run w1 image_files) as [[w2 n] [e|]]; simpl; eauto.
  - destruct (main_run w [input_file]) as [[w2 n] [e|]]; simpl; eauto.
Qed.

(** X17.  Whatever path the program takes (a return from [main], an exit
    from [convert_pdf_to_images], an exception that nothing catches), the
    [finally] clause has run when it ends and no file is left below the
    temporary directory. *)
Theorem main_program_cleans_up `{Externals} `{System} (w : world) (input_file : string) :
  forall name,
    below (mkdtemp (files w)) name = true ->
    files (fst (main_program w input_file)) !! name = None.
Proof.
  intros name Hbelow.
  destruct (main_program_finally w input_file) as [w1 ->]. simpl.
  apply map_lookup_filter_None. right. intros img _. simpl. congruence.
Qed.

Lemma main_program_cleans_up_witness :
  snd (main_program (H := Sample.full_disk) (H0 := Sample.system)
         Sample.start "scan.PDF") = Crashed OSError /\
  files (fst (main_program (H := Sample.full_disk) (H0 := Sample.system)
                Sample.start "scan.PDF")) !! "/tmp/tmpk3/1.jpg" = None.
Proof.
  split; [vm_compute; reflexivity|].
  apply (main_program_cleans_up (H := Sample.full_disk) (H0 := Sample.system)
           Sample.start "scan.PDF").
  reflexivity.
Defined.

Lemma output_not_below (rest : string) (k : Z) :
  below (String "/" rest) (output_name_of k) = false.
Proof. reflexivity. Qed.

(** X18.  When the program returns from [main] and the temporary directory
    is an absolute path, the output files outlive the cleanup: the names
    saved are final_image_1.jpg up to the count of images saved, and each
    of these files is there at the end. *)
Theorem outputs_survive_cleanup `{Externals} `{System} (w w' : world)
    (input_file : string) (total_images_saved : Z) :
  main_program w input_file = (w', Completed total_images_saved) ->
  (exists rest, mkdtemp (files w) = String "/" rest) ->
  let names :=
    List.map (fun i => "final_image_" ++ str (Z.of_nat i) ++ ".jpg")
      (seq 1 (Z.to_nat total_images_saved)) in
  saved w' = (saved w ++ names)%list /\
  List.Forall (fun name => is_Some (files w' !! name)) names.
Proof.
  intros Hrun [rest Htemp] names.
  assert (Hnames : names = List.map output_name_of (count_from 0 (Z.to_nat total_images_saved))).
  { unfold names, count_from. rewrite List.map_map. reflexivity. }
  assert (Hgoal : forall w1 w2 image_files,
            saved w1 = saved w ->
            main w1 image_files = Ok (w2, total_images_saved) ->
            w' = rmtree w2 (mkdtemp (files w)) ->
            saved w' = (saved w ++ names)%list /\
            List.Forall (fun name => is_Some (files w' !! name)) names).
  { intros w1 w2 image_files Hsaved1 Hmain ->.
    destruct (main_returned w1 w2 image_files _ Hmain) as (Hsaved & Hnew).
    rewrite Hnames. split; [simpl; now rewrite Hsaved, Hsaved1|].
    rewrite List.Forall_forall in Hnew |- *. intros name Hname.
    destruct (Hnew name Hname) as [img Himg]. exists img. simpl.
    apply map_lookup_filter_Some. split; [exact Himg|]. simpl.
    apply List.in_map_iff in Hname as (k & <- & _).
    rewrite Htemp. apply output_not_below. }
  unfold main_program in Hrun.
  destruct (endswith (lower input_file) ".pdf").
  - pose proof (convert_pdf_keeps_saved w input_file (mkdtemp (files w))) as Hsaved1.
    destruct (convert_pdf_to_images w input_file _) as [w1 [image_files|status]];
      [|discriminate].
    simpl in Hsaved1.
    destruct (main_run w1 image_files) as [[w2 n] [e|]] eqn:Hmain; [discriminate|].
    injection Hrun as <- <-.
    exact (Hgoal w1 w2 image_files Hsaved1 (main_run_returns _ _ _ Hmain) eq_refl).
  - destruct (main_run w [input_file]) as [[w2 n] [e|]] eqn:Hmain; [discriminate|].
    injection Hrun as <- <-.
    exact (Hgoal w w2 [input_file] eq_refl (main_run_returns _ _ _ Hmain) eq_refl).
Qed.

Lemma outputs_survive_cleanup_witness :
  exists w',
    main_program (H := Sample.externals) (H0 := Sample.system) Sample.start "scan.PDF" =
      (w', Completed 1) /\
    saved w' = ["final_image_1.jpg"] /\
    List.Forall (fun name => is_Some (files w' !! name)) ["final_image_1.jpg"].
Proof.
  destruct (main_program (H := Sample.externals) (H0 := Sample.system)
              Sample.start "scan.PDF") as [w' how] eqn:Hrun.
  assert (Hhow : how = Completed 1).
  { change how with (snd (w', how)). rewrite <- Hrun. vm_compute. reflexivity. }
  subst how. exists w'. split; [reflexivity|].
  apply (outputs_survive_cleanup (H := Sample.externals) (H0 := Sample.system)
           Sample.start w' "scan.PDF" 1 Hrun).
  exists "tmp/tmpk3". reflexivity.
Defined.

(** X19.  A PDF that cannot be rasterized, or that gives no page, ends the
    program with status 1 before any image is saved. *)
Theorem failed_conversion_exits `{Externals} `{System} (w : world) (input_file : string) :
  endswith (lower input_file) ".pdf" = true ->
  (snd (convert_from_path input_file (mkdtemp (files w)) (files w)) = Ok [] \/
   exists e, snd (convert_from_path input_file (mkdtemp (files w)) (files w)) = Raise e) ->
  snd (main_program w input_file) = Exited 1 /\
  saved (fst (main_program w input_file)) = saved w.
Proof.
  intros Hpdf Hfail. unfold main_program, convert_pdf_to_images. rewrite Hpdf.
  destruct (convert_from_path input_file (mkdtemp (files w)) (files w)) as [fs images].
  simpl in Hfail. destruct Hfail as [->|[e ->]]; simpl; auto.
Qed.

Lemma failed_conversion_exits_witness :
  snd (main_program (H := Sample.externals) (H0 := Sample.system)
         Sample.start "empty.pdf") = Exited 1 /\
  saved (fst (main_program (H := Sample.externals) (H0 := Sample.system)
                Sample.start "empty.pdf")) = [].
Proof.
  apply (failed_conversion_exits (H := Sample.externals) (H0 := Sample.system)
           Sample.start "empty.pdf"); [reflexivity | left; reflexivity].
Defined.

Lemma lower_app (a b : string) : lower (a ++ b) = lower a ++ lower b.
Proof.
  induction a as [|c a IH]; [reflexivity|].
  rewrite string_app_cons. simpl. rewrite IH. reflexivity.
Qed.

Lemma endswith_app (a suffix : string) : endswith (a ++ suffix) suffix = true.
Proof.
  induction a as [|c a IH].
  - rewrite string_app_nil. destruct suffix; simpl; rewrite ?String.eqb_refl;
      rewrite ?Ascii.eqb_refl; reflexivity.
  - rewrite string_app_cons. simpl. rewrite IH. apply orb_true_r.
Qed.



(** ** When nothing escapes the page loop *)

Section PillowAgrees.
Context `{Externals}.
Hypothesis Hreads : pillow_reads.
Hypothesis Hwrites : disk_writes.

(** A box of the detector is processed and saved. *)
Lemma process_detector_box (w : world) (input_image box output_name : string) :
  detector_box box ->
  is_Some (files w !! input_image) ->
  exists final_image,
    process_sub_image w input_image box output_name =
    Ok (written w output_name final_image).
Proof.
  intros (cnt & Hlarge & ->) [img Hfile].
  unfold process_sub_image, box_of.
  destruct (cv2.boundingRect cnt) as [[[x y] bw] bh] eqn:Hrect.
  destruct (boundingRect_positive cnt x y bw bh (large_nonempty cnt Hlarge) Hrect)
    as [Hw Hh].
  rewrite parse_format_box. simpl.
  unfold Image_open. rewrite Hfile. destruct (Hreads input_image img) as [img' ->]. simpl.
  match goal with
  | |- context [detect_orientation ?c] => set (cropped := c)
  end.
  assert (Hcrop : cropped =
                  PIL.crop black
                    (Z.abs x, Z.abs y, Z.abs x + Z.abs bw, Z.abs y + Z.abs bh) img')
    by reflexivity.
  assert (Hcw : width cropped = Z.to_nat (Z.abs bw))
    by (rewrite Hcrop; simpl; f_equal; lia).
  assert (Hch : height cropped = Z.to_nat (Z.abs bh))
    by (rewrite Hcrop; simpl; f_equal; lia).
  assert (Hsize : Img.empty cropped = false).
  { unfold Img.empty. apply orb_false_iff. split; apply Nat.eqb_neq; lia. }
  destruct (for_each_total cropped rotations Hsize search_start) as [st Hst].
  unfold detect_orientation. rewrite Hst. unfold mbind, result_bind.
  set (rotated := PIL.rotate white (best_rotation st) cropped).
  assert (Hwf : well_formed rotated).
  { apply rotate_well_formed. rewrite Hcrop. unfold PIL.crop. apply tabulate_well_formed. }
  assert (Hrot : (0 < width rotated)%nat /\ (0 < height rotated)%nat).
  { destruct (rotate_size white (best_rotation st) cropped) as [[Hrw Hrh]|[Hrw Hrh]];
      fold rotated in Hrw, Hrh; lia. }
  destruct (autocrop_border_size rotated Hwf (proj1 Hrot) (proj2 Hrot)) as [Hfw Hfh].
  unfold Image_save.
  replace (Img.empty (autocrop_border rotated)) with false.
  - rewrite Hwrites. eauto.
  - symmetry. unfold Img.empty. apply orb_false_iff. split; apply Nat.eqb_neq; lia.
Qed.

Lemma save_boxes_total (image_file : string) (boxes : list string) :
  List.Forall detector_box boxes ->
  forall st : world * Z,
    is_Some (files (fst st) !! image_file) ->
    exists st', for_each (save_box image_file) boxes st = Ok st'.
Proof.
  induction 1 as [|box boxes Hbox Hboxes IH]; intros st Hfile; simpl; [eauto|].
  destruct (process_detector_box (fst st) image_file box (output_name_of (snd st + 1))
              Hbox Hfile) as [final_image Hrun].
  assert (Hstep : save_box image_file st box =
                  Ok (written (fst st) (output_name_of (snd st + 1)) final_image,
                      snd st + 1)).
  { unfold save_box. cbv zeta.
    change ("final_image_" ++ str (snd st + 1) ++ ".jpg")
      with (output_name_of (snd st + 1)).
    rewrite Hrun. reflexivity. }
  rewrite Hstep. unfold mbind, result_bind. apply IH.
  simpl. apply lookup_insert_is_Some'. now right.
Qed.

Lemma process_page_total (st : world * Z) (image_file : string) :
  exists st', process_page st image_file = Ok st'.
Proof.
  unfold process_page.
  destruct (find_sub_images (files (fst st)) image_file) as [|box boxes] eqn:Hboxes;
    [simpl; eauto|].
  rewrite <- Hboxes.
  destruct (find_sub_images_boxes (files (fst st)) image_file) as [Hfile Hgood];
    [rewrite Hboxes; discriminate|].
  now apply save_boxes_total.
Qed.

Lemma main_total (w : world) (image_files : list string) :
  exists st', main w image_files = Ok st'.
Proof.
  unfold main. generalize (w, 0).
  induction image_files as [|image_file rest IH]; intros st; simpl; [eauto|].
  destruct (process_page_total st image_file) as [st1 ->]. simpl. apply IH.
Qed.

End PillowAgrees.


